(** * SPC_Constants: control-chart constants computed from scratch

    A shallow embedding of [spc_constants.py] and the properties of its
    specification.

    Numbers are IEEE binary64 values (Rocq's primitive floats), so the
    comparisons of the constructor behave on NaN as Python's do, and the
    arithmetic of the derived constants rounds as the program's does.
    The numerical library the program calls (scipy's [quad], [norm.cdf]
    and [gammaln], numpy's [exp], the power operator, and the conversions
    between floats and text that the cache uses) is an interface,
    [Runtime]; [np.sqrt] is the primitive square root, which returns NaN on
    a negative argument.  Division is IEEE division, as numpy's is.
    Python's own division of floats differs from it only on a zero divisor,
    where it raises [ZeroDivisionError]; the divisors of the program are
    n − 1, sqrt(n), d2 and c4, none of which is zero for n >= 2
    (section 4.4 of the specification).

    The three [dbm] files of the persistent cache and the tables of
    [functools.cache] form the [World] that every accessor threads. *)

From Stdlib Require Import Floats ZArith Ascii.
From stdpp Require Import base option list gmap strings.

(** ** The numerical runtime *)

Class Runtime := {
  (** [scipy.stats.norm.cdf] *)
  norm_cdf : float → float;
  (** [scipy.integrate.quad f a b]: the value and the error estimate *)
  quad : (float → float) → float → float → float * float;
  (** [scipy.special.gammaln] *)
  gammaln : float → float;
  (** [np.exp] *)
  np_exp : float → float;
  (** [x ** y] *)
  float_pow : float → float → float;
  (** the text of a number in an f-string *)
  format_float : float → string;
  (** [float(s)] *)
  parse_float : string → float;
}.

(** Python's [repr] of a float is the shortest text that [float] reads back
    to the same value. *)
Definition text_roundtrip `{Runtime} : Prop :=
  ∀ x : float, parse_float (format_float x) = x.

(** ** Exceptions *)

Inductive exn :=
  | ValueError (msg : string)
  | AttributeError (msg : string).

Inductive outcome (A : Type) :=
  | Returns (a : A)
  | Raises (e : exn).
Arguments Returns {A} a.
Arguments Raises {A} e.

(** ** The world: cache files and memo tables *)

Record World := mkWorld {
  (** the [dbm] files, by path; each maps encoded keys to encoded values *)
  dbm : gmap string (gmap string string);
  (** the tables of [functools.cache], by function name and instance *)
  memo : gmap (string * positive) float;
}.

Definition empty_world : World := {| dbm := ∅; memo := ∅ |}.

(** [dbm.open(path, "c")]: a file that does not exist yet reads as empty. *)
Definition db_of (db_path : string) (w : World) : gmap string string :=
  default ∅ (dbm w !! db_path).

Definition dbm_put (db_path key value : string) (w : World) : World :=
  {| dbm := <[db_path := <[key := value]> (db_of db_path w)]> (dbm w);
     memo := memo w |}.

Definition memo_put (name : string) (o : positive) (v : float) (w : World) : World :=
  {| dbm := dbm w; memo := <[(name, o) := v]> (memo w) |}.

(** Computations that read and write the world. *)
Definition M (A : Type) : Type := World → A * World.

#[export] Instance M_ret : MRet M := λ A a w, (a, w).
#[export] Instance M_bind : MBind M :=
  λ A B k m w, let '(a, w') := m w in k a w'.

Definition get_db (db_path : string) : M (gmap string string) :=
  λ w, (db_of db_path w, w).
Definition put_db (db_path key value : string) : M unit :=
  λ w, (tt, dbm_put db_path key value w).

(** Python's [max(a, b)]: the second argument only when it is greater. *)
Definition max_ (a b : float) : float := if (a <? b)%float then b else a.

(** ** The class *)

Module SPC_Constants.

Record t := mk {
  oid : positive;          (** the identity of the object *)
  _sample_size : float;
  _sigma_limit : float;
}.

Section Class.
Context `{rt : Runtime}.
Open Scope float_scope.

Definition n (self : t) : float := _sample_size self.
Definition z (self : t) : float := _sigma_limit self.

Definition _encode (item : float) : string := format_float item.
Definition _decode (_bytes : string) : float := parse_float _bytes.

(** The decorator [persistent_cache(db_path)]. *)
Definition persistent_cache (db_path : string) (func : t → M float) : t → M float :=
  λ self,
    let key := n self in
    let encoded_key := _encode key in
    db ← get_db db_path;
    match db !! encoded_key with
    | Some _bytes => mret (_decode _bytes)
    | None =>
        value ← func self;
        _ ← put_db db_path encoded_key (_encode value);
        mret value
    end.

(** The decorator [functools.cache] on a method: one table per function,
    keyed by the instance. *)
Definition cache (name : string) (func : t → M float) : t → M float :=
  λ self w,
    match memo w !! (name, oid self) with
    | Some v => (v, w)
    | None => let '(v, w') := func self w in (v, memo_put name (oid self) v w')
    end.

(** [self] is the identity of the object under construction; the instance
    is returned only when neither guard raises. *)
Definition __init__ (self : positive) (n z : float) (w : World) : outcome t * World :=
  if n <? 2 then
    (Raises (ValueError
       ("Sample size n must be greater than or equal to 2, not " +:+ format_float n)), w)
  else if z <=? 0 then
    (Raises (ValueError ("z argument must be positive, not " +:+ format_float z)), w)
  else
    (Returns {| oid := self; _sample_size := n; _sigma_limit := z |}, w).

(** The default of the parameter [z]. *)
Definition z_default : float := 3.

Definition d2 : t → M float :=
  persistent_cache ".cache.d2.dbm" (λ self,
    let n := n self in
    let integrand x :=
      1 - float_pow (1 - norm_cdf x) n - float_pow (norm_cdf x) n in
    let '(result, _) := quad integrand neg_infinity infinity in
    mret result).

Definition f (self : t) (x y : float) : float :=
  let n := n self in
  let Phi_x := norm_cdf x in
  let Phi_y := norm_cdf y in
  1 - float_pow Phi_y n - float_pow (1 - Phi_x) n + float_pow (Phi_y - Phi_x) n.

Definition inner_integral (self : t) (y : float) : float :=
  let '(result, _) := quad (λ x, f self x y) neg_infinity y in
  result.

Definition d3 : t → M float :=
  persistent_cache ".cache.d3.dbm" (λ self,
    let '(outer_integral_value, _) :=
      quad (λ y, inner_integral self y) neg_infinity infinity in
    d2_ ← d2 self;
    let result := sqrt (2 * outer_integral_value - float_pow d2_ 2) in
    mret result).

Definition c4 : t → M float :=
  persistent_cache ".cache.c4.dbm" (λ self,
    let n := n self in
    let gamma_ratio := np_exp (gammaln (n / 2) - gammaln ((n - 1) / 2)) in
    mret (sqrt (2 / (n - 1)) * gamma_ratio)).

Definition c5 : t → M float :=
  cache "c5" (λ self,
    c4_ ← c4 self;
    mret (sqrt (1 - float_pow c4_ 2))).

Definition A : t → M float :=
  cache "A" (λ self, mret (z self / sqrt (n self))).

Definition A2 : t → M float :=
  cache "A2" (λ self,
    d2_ ← d2 self;
    mret (z self / d2_ / sqrt (n self))).

Definition A3 : t → M float :=
  cache "A3" (λ self,
    c4_ ← c4 self;
    mret (z self / c4_ / sqrt (n self))).

(** The bodies below read [self.c4] twice, as the source does. *)
Definition B3 : t → M float :=
  cache "B3" (λ self,
    c4_ ← c4 self;
    c4' ← c4 self;
    mret (max_ 0 (1 - (z self / c4_) * sqrt (1 - float_pow c4' 2)))).

Definition B4 : t → M float :=
  cache "B4" (λ self,
    c4_ ← c4 self;
    c4' ← c4 self;
    mret (1 + (z self / c4_) * sqrt (1 - float_pow c4' 2))).

Definition B5 : t → M float :=
  cache "B5" (λ self,
    c4_ ← c4 self;
    c4' ← c4 self;
    mret (max_ 0 (c4_ - z self * sqrt (1 - float_pow c4' 2)))).

Definition B6 : t → M float :=
  cache "B6" (λ self,
    c4_ ← c4 self;
    c4' ← c4 self;
    mret (c4_ + z self * sqrt (1 - float_pow c4' 2))).

Definition D1 : t → M float :=
  cache "D1" (λ self,
    d2_ ← d2 self;
    d3_ ← d3 self;
    mret (max_ 0 (d2_ - z self * d3_))).

Definition D2 : t → M float :=
  cache "D2" (λ self,
    d2_ ← d2 self;
    d3_ ← d3 self;
    mret (d2_ + z self * d3_)).

Definition D3 : t → M float :=
  cache "D3" (λ self,
    d3_ ← d3 self;
    d2_ ← d2 self;
    mret (max_ 0 (1 - z self * d3_ / d2_))).

Definition D4 : t → M float :=
  cache "D4" (λ self,
    d3_ ← d3 self;
    d2_ ← d2 self;
    mret (1 + z self * d3_ / d2_)).

Definition E2 : t → M float :=
  cache "E2" (λ self,
    d2_ ← d2 self;
    mret (z self / d2_)).

Definition E3 : t → M float :=
  cache "E3" (λ self,
    c4_ ← c4 self;
    mret (z self / c4_)).

(** The properties of the class, by name.  Each is declared with
    [@property] alone: a getter and no setter. *)
Definition properties : list (string * (t → M float)) :=
  [ ("n", λ self, mret (n self)); ("z", λ self, mret (z self));
    ("d2", d2); ("d3", d3); ("c4", c4); ("c5", c5);
    ("A", A); ("A2", A2); ("A3", A3);
    ("B3", B3); ("B4", B4); ("B5", B5); ("B6", B6);
    ("D1", D1); ("D2", D2); ("D3", D3); ("D4", D4);
    ("E2", E2); ("E3", E3) ].

Fixpoint lookup_property (name : string) (ps : list (string * (t → M float)))
  : option (t → M float) :=
  match ps with
  | [] => None
  | (k, fget) :: ps' => if String.eqb name k then Some fget else lookup_property name ps'
  end.

(** Reading [self.name].  A property runs its getter; the two attributes
    that [__init__] stores are read back as stored; the class defines no
    other numeric attribute. *)
Definition getattr (self : t) (name : string) (w : World) : outcome float * World :=
  match lookup_property name properties with
  | Some fget => let '(v, w') := fget self w in (Returns v, w')
  | None =>
      if String.eqb name "_sample_size" then (Returns (_sample_size self), w)
      else if String.eqb name "_sigma_limit" then (Returns (_sigma_limit self), w)
      else (Raises (AttributeError
              ("'SPC_Constants' object has no attribute '" +:+ name +:+ "'")), w)
  end.

(** Assigning [self.name = value].  A property without a setter refuses the
    assignment; any other name is an ordinary instance attribute. *)
Definition setattr (self : t) (name : string) (value : float) : outcome t :=
  match lookup_property name properties with
  | Some _ =>
      Raises (AttributeError
        ("property '" +:+ name +:+ "' of 'SPC_Constants' object has no setter"))
  | None =>
      if String.eqb name "_sample_size" then
        Returns {| oid := oid self; _sample_size := value; _sigma_limit := _sigma_limit self |}
      else if String.eqb name "_sigma_limit" then
        Returns {| oid := oid self; _sample_size := _sample_size self; _sigma_limit := value |}
      else Returns self
  end.

End Class.
End SPC_Constants.

(** ** Floating-point facts used below *)

Section FloatFacts.
Open Scope float_scope.

(** [np.sqrt] of a negative number is NaN. *)
Lemma sqrt_negative (x : float) : (x <? 0) = true → sqrt x = nan.
Proof.
  intros Hx.
  rewrite <- (SF2Prim_Prim2SF (sqrt x)), sqrt_spec.
  rewrite ltb_spec in Hx.
  destruct (Prim2SF x) as [[]|[]| |[] m e]; try discriminate Hx; reflexivity.
Qed.

Lemma negative_below_two (x : float) : (x <? 0) = true → (x <? 2) = true.
Proof.
  rewrite !ltb_spec.
  destruct (Prim2SF x) as [[]|[]| |[] m e]; intros Hx; try discriminate Hx; reflexivity.
Qed.

Lemma negative_below_zero (x : float) : (x <? 0) = true → (x <=? 0) = true.
Proof.
  rewrite ltb_spec, leb_spec.
  destruct (Prim2SF x) as [[]|[]| |[] m e]; intros Hx; try discriminate Hx; reflexivity.
Qed.

(** [max(0, x)] clamps exactly the values that are not above zero. *)
Lemma max_0_negative (x : float) : (x <? 0) = true → max_ 0 x = 0.
Proof.
  intros Hx. unfold max_.
  rewrite ltb_spec in Hx. rewrite ltb_spec.
  destruct (Prim2SF x) as [[]|[]| |[] m e]; try discriminate Hx; reflexivity.
Qed.

Lemma max_0_positive (x : float) : (0 <? x) = true → max_ 0 x = x.
Proof. intros Hx. unfold max_. rewrite Hx. reflexivity. Qed.

End FloatFacts.

(** ** The world only grows *)

Lemma db_of_dbm_put (p k v : string) (w : World) (p' : string) :
  db_of p' (dbm_put p k v w) =
  if decide (p' = p) then <[k := v]> (db_of p w) else db_of p' w.
Proof.
  unfold db_of, dbm_put; simpl. case_decide as Hp.
  - subst p'. by rewrite lookup_insert_eq.
  - by rewrite lookup_insert_ne.
Qed.

Lemma db_of_memo_put (name : string) (o : positive) (v : float) (w : World) (p : string) :
  db_of p (memo_put name o v w) = db_of p w.
Proof. reflexivity. Qed.

(** [extends w w']: every cache entry and every memoised value of [w] is
    still there, unchanged, in [w']. *)
Definition extends (w w' : World) : Prop :=
  (∀ p, db_of p w ⊆ db_of p w') ∧ memo w ⊆ memo w'.

#[export] Instance extends_preorder : PreOrder extends.
Proof.
  split.
  - intros w. split; [intros p|]; reflexivity.
  - intros w1 w2 w3 [H12 M12] [H23 M23]. split.
    + intros p. etransitivity; [apply H12 | apply H23].
    + etransitivity; eassumption.
Qed.

Lemma extends_dbm_put (p k v : string) (w w' : World) :
  extends w w' → db_of p w !! k = None → extends w (dbm_put p k v w').
Proof.
  intros [Hdb Hmemo] Hk. split; [|exact Hmemo].
  intros p'. rewrite db_of_dbm_put. case_decide as Hp; [subst p'|apply Hdb].
  apply insert_subseteq_r; [exact Hk | apply Hdb].
Qed.

Lemma extends_memo_put (name : string) (o : positive) (v : float) (w w' : World) :
  extends w w' → memo w !! (name, o) = None → extends w (memo_put name o v w').
Proof.
  intros [Hdb Hmemo] Hk. split; [exact Hdb|].
  simpl. apply insert_subseteq_r; assumption.
Qed.

Lemma extends_db_lookup (w w' : World) (p k b : string) :
  extends w w' → db_of p w !! k = Some b → db_of p w' !! k = Some b.
Proof. intros [Hdb _] Hk. eapply lookup_weaken; [exact Hk | apply Hdb]. Qed.

Lemma extends_memo_lookup (w w' : World) (key : string * positive) (v : float) :
  extends w w' → memo w !! key = Some v → memo w' !! key = Some v.
Proof. intros [_ Hmemo] Hk. eapply lookup_weaken; eassumption. Qed.

(** A computation [steps] along a preorder [R] on worlds when the world it
    leaves is always [R]-related to the world it started from. *)
Section Steps.
Context (R : relation World) `{!PreOrder R}.

Definition steps {A : Type} (m : M A) : Prop := ∀ w, R w (m w).2.

Lemma steps_ret {A : Type} (a : A) : steps (mret a).
Proof. intros w. reflexivity. Qed.

Lemma steps_bind {A B : Type} (m : M A) (k : A → M B) :
  steps m → (∀ a, steps (k a)) → steps (m ≫= k).
Proof.
  intros Hm Hk w. unfold mbind, M_bind.
  specialize (Hm w). destruct (m w) as [a w1]. simpl in Hm.
  etransitivity; [exact Hm | apply Hk].
Qed.

End Steps.

(** A computation is [extending] when it only adds to the world. *)
Abbreviation extending := (steps extends).

(** ** The two decorators *)

Section Decorators.
Context `{rt : Runtime}.

Lemma persistent_cache_run (db_path : string) (func : SPC_Constants.t → M float)
    (self : SPC_Constants.t) (w : World) :
  SPC_Constants.persistent_cache db_path func self w =
  match db_of db_path w !! SPC_Constants._encode (SPC_Constants.n self) with
  | Some b => (SPC_Constants._decode b, w)
  | None =>
      let '(v, w') := func self w in
      (v, dbm_put db_path (SPC_Constants._encode (SPC_Constants.n self))
            (SPC_Constants._encode v) w')
  end.
Proof.
  unfold SPC_Constants.persistent_cache, mbind, M_bind, get_db; simpl.
  destruct (db_of db_path w !! _) as [b|]; [reflexivity|].
  destruct (func self w) as [v w']. reflexivity.
Qed.

Lemma persistent_cache_extending db_path func (self : SPC_Constants.t) :
  extending (func self) →
  extending (SPC_Constants.persistent_cache db_path func self).
Proof.
  intros Hf w. rewrite persistent_cache_run.
  destruct (db_of db_path w !! _) as [b|] eqn:Hk; [reflexivity|].
  specialize (Hf w). destruct (func self w) as [v w']. simpl in *.
  by apply extends_dbm_put.
Qed.

Lemma cache_extending name func (self : SPC_Constants.t) :
  extending (func self) → extending (SPC_Constants.cache name func self).
Proof.
  intros Hf w. unfold SPC_Constants.cache.
  destruct (memo w !! _) as [v|] eqn:Hk; [reflexivity|].
  specialize (Hf w). destruct (func self w) as [v w']. simpl in *.
  by apply extends_memo_put.
Qed.

(** A getter is [stable] when, once it has returned [v], it returns [v] in
    every later world and leaves that world as it is. *)
Definition stable (fget : SPC_Constants.t → M float) : Prop :=
  ∀ self w v w1 w2,
    fget self w = (v, w1) → extends w1 w2 → fget self w2 = (v, w2).

(** The entry a miss writes is the text of the value it returns, so a later
    hit returns the same value as soon as the text reads back. *)
Lemma persistent_cache_stable db_path func :
  text_roundtrip → stable (SPC_Constants.persistent_cache db_path func).
Proof.
  intros Hrt self w v w1 w2 Hrun Hext.
  rewrite persistent_cache_run in Hrun. rewrite persistent_cache_run.
  destruct (db_of db_path w !! _) as [b|] eqn:Hk.
  - injection Hrun as <- <-.
    by rewrite (extends_db_lookup _ _ _ _ _ Hext Hk).
  - destruct (func self w) as [v' w'] eqn:Hf. injection Hrun as <- <-.
    erewrite extends_db_lookup; [|exact Hext|].
    + unfold SPC_Constants._decode, SPC_Constants._encode. by rewrite Hrt.
    + rewrite db_of_dbm_put, decide_True by done. apply lookup_insert_eq.
Qed.

Lemma cache_stable name func : stable (SPC_Constants.cache name func).
Proof.
  intros self w v w1 w2 Hrun Hext. unfold SPC_Constants.cache in *.
  destruct (memo w !! _) as [v0|] eqn:Hk.
  - injection Hrun as <- <-.
    by rewrite (extends_memo_lookup _ _ _ _ Hext Hk).
  - destruct (func self w) as [v' w'] eqn:Hf. injection Hrun as <- <-.
    erewrite extends_memo_lookup; [reflexivity|exact Hext|].
    simpl. apply lookup_insert_eq.
Qed.

End Decorators.

(** ** The formulas of the specification

    These follow the words of the specification (sections 4.2 and 4.3); the
    theorems below compare them with what the accessors return. *)

Section Formulas.
Context `{rt : Runtime}.
Open Scope float_scope.

(** d2(n): the integral over the whole real line of
    1 − (1−Φ(x))^n − Φ(x)^n. *)
Definition spec_d2 (n : float) : float :=
  (quad (λ x, 1 - float_pow (1 - norm_cdf x) n - float_pow (norm_cdf x) n)
        neg_infinity infinity).1.

(** inner(y): the integral of f(x, y) over x from −∞ up to y. *)
Definition spec_inner (n y : float) : float :=
  (quad (λ x, 1 - float_pow (norm_cdf y) n - float_pow (1 - norm_cdf x) n
                + float_pow (norm_cdf y - norm_cdf x) n)
        neg_infinity y).1.

(** The value under the square root of d3(n). *)
Definition spec_d3_radicand (n : float) : float :=
  2 * (quad (spec_inner n) neg_infinity infinity).1 - float_pow (spec_d2 n) 2.

Definition spec_d3 (n : float) : float := sqrt (spec_d3_radicand n).

(** c4(n) = sqrt(2/(n−1)) · exp(lnGamma(n/2) − lnGamma((n−1)/2)). *)
Definition spec_c4 (n : float) : float :=
  sqrt (2 / (n - 1)) * np_exp (gammaln (n / 2) - gammaln ((n - 1) / 2)).

(** ** Sound caches

    A cache file is sound when every entry under the key of a sample size
    reads back as the value the accessor computes for that sample size.
    Empty files are sound, and every accessor keeps the files sound. *)

Definition entry_ok (db_path : string) (g : float → float) (w : World) : Prop :=
  ∀ (m : float) (b : string),
    db_of db_path w !! format_float m = Some b → parse_float b = g m.

Definition sound (w : World) : Prop :=
  entry_ok ".cache.d2.dbm" spec_d2 w ∧
  entry_ok ".cache.d3.dbm" spec_d3 w ∧
  entry_ok ".cache.c4.dbm" spec_c4 w.

Lemma sound_empty_world : sound empty_world.
Proof. repeat split; intros m b Hb; discriminate Hb. Qed.

Lemma entry_ok_put (db_path : string) (g : float → float) (m : float) (w : World) :
  text_roundtrip →
  entry_ok db_path g w →
  entry_ok db_path g (dbm_put db_path (format_float m) (format_float (g m)) w).
Proof.
  intros Hrt Hok m' b. rewrite db_of_dbm_put, decide_True by done.
  destruct (decide (format_float m' = format_float m)) as [Hkey|Hkey].
  - rewrite Hkey, lookup_insert_eq. intros [= <-].
    apply (f_equal parse_float) in Hkey. rewrite !Hrt in Hkey. subst m'.
    apply Hrt.
  - rewrite lookup_insert_ne by done. apply Hok.
Qed.

Lemma entry_ok_put_other (db_path db_path' k v : string) (g : float → float) (w : World) :
  db_path' ≠ db_path →
  entry_ok db_path' g w → entry_ok db_path' g (dbm_put db_path k v w).
Proof.
  intros Hne Hok m b. rewrite db_of_dbm_put, decide_False by done. apply Hok.
Qed.

Lemma sound_memo_put (name : string) (o : positive) (v : float) (w : World) :
  sound w → sound (memo_put name o v w).
Proof. intros H. exact H. Qed.

(** On sound caches the three cached accessors return the formulas, hit or
    miss, and leave the caches sound. *)
Lemma d2_run (self : SPC_Constants.t) (w : World) :
  sound w →
  ∃ w', SPC_Constants.d2 self w = (spec_d2 (SPC_Constants.n self), w') ∧
        (text_roundtrip → sound w').
Proof.
  intros (Hd2 & Hd3 & Hc4). unfold SPC_Constants.d2.
  rewrite persistent_cache_run.
  destruct (db_of _ w !! _) as [b|] eqn:Hk.
  - exists w. split; [|by intros _].
    f_equal. exact (Hd2 _ _ Hk).
  - unfold spec_d2.
    destruct (quad _ neg_infinity infinity) as [result err] eqn:Hq.
    eexists. split; [reflexivity|]. intros Hrt.
    change result with (result, err).1. rewrite <- Hq.
    repeat split.
    + by apply (entry_ok_put _ spec_d2).
    + by apply entry_ok_put_other.
    + by apply entry_ok_put_other.
Qed.

Lemma c4_run (self : SPC_Constants.t) (w : World) :
  sound w →
  ∃ w', SPC_Constants.c4 self w = (spec_c4 (SPC_Constants.n self), w') ∧
        (text_roundtrip → sound w').
Proof.
  intros (Hd2 & Hd3 & Hc4). unfold SPC_Constants.c4.
  rewrite persistent_cache_run.
  destruct (db_of _ w !! _) as [b|] eqn:Hk.
  - exists w. split; [|by intros _].
    f_equal. exact (Hc4 _ _ Hk).
  - eexists. split; [reflexivity|]. intros Hrt.
    repeat split.
    + by apply entry_ok_put_other.
    + by apply entry_ok_put_other.
    + by apply (entry_ok_put _ spec_c4).
Qed.

Lemma d3_run (self : SPC_Constants.t) (w : World) :
  sound w →
  ∃ w', SPC_Constants.d3 self w = (spec_d3 (SPC_Constants.n self), w') ∧
        (text_roundtrip → sound w').
Proof.
  intros Hs. unfold SPC_Constants.d3.
  rewrite persistent_cache_run.
  destruct (db_of _ w !! _) as [b|] eqn:Hk.
  - exists w. split; [|by intros _].
    f_equal. destruct Hs as (_ & Hd3 & _). exact (Hd3 _ _ Hk).
  - unfold spec_d3, spec_d3_radicand.
    change (spec_inner (SPC_Constants.n self))
      with (λ y, SPC_Constants.inner_integral self y).
    destruct (quad _ neg_infinity infinity) as [outer err] eqn:Hq.
    unfold mbind, M_bind.
    destruct (d2_run self w Hs) as (w1 & -> & Hs1).
    eexists. split; [reflexivity|]. intros Hrt.
    destruct (Hs1 Hrt) as (Hd2 & Hd3 & Hc4).
    pose proof (entry_ok_put ".cache.d3.dbm" spec_d3 (SPC_Constants.n self) w1 Hrt Hd3)
      as Hput.
    unfold spec_d3 at 2, spec_d3_radicand in Hput.
    change (spec_inner (SPC_Constants.n self))
      with (λ y, SPC_Constants.inner_integral self y) in Hput.
    rewrite Hq in Hput.
    repeat split.
    + by apply entry_ok_put_other.
    + exact Hput.
    + by apply entry_ok_put_other.
Qed.

End Formulas.

(** ** Every getter only adds to the world, and is stable *)

Section Getters.
Context `{rt : Runtime}.

(** Soundness seen as a preorder on worlds: whatever was sound stays sound. *)
Definition keeps_sound (w w' : World) : Prop := sound w → sound w'.

#[export] Instance keeps_sound_preorder : PreOrder keeps_sound.
Proof. split; [intros w H; exact H | intros w1 w2 w3 H12 H23 H; auto]. Qed.

Lemma d2_extending self : extending (SPC_Constants.d2 self).
Proof.
  apply persistent_cache_extending. intros w. cbv beta zeta.
  destruct (quad _ neg_infinity infinity) as [result err]. reflexivity.
Qed.

Lemma c4_extending self : extending (SPC_Constants.c4 self).
Proof. apply persistent_cache_extending. intros w. reflexivity. Qed.

Lemma d3_extending self : extending (SPC_Constants.d3 self).
Proof.
  apply persistent_cache_extending. cbv beta zeta.
  destruct (quad _ neg_infinity infinity) as [outer err].
  apply steps_bind; [apply _ | apply d2_extending | intros a; apply steps_ret; apply _].
Qed.

Lemma d2_keeps_sound self : text_roundtrip → steps keeps_sound (SPC_Constants.d2 self).
Proof.
  intros Hrt w Hs. destruct (d2_run self w Hs) as (w' & -> & Hs'). by apply Hs'.
Qed.

Lemma c4_keeps_sound self : text_roundtrip → steps keeps_sound (SPC_Constants.c4 self).
Proof.
  intros Hrt w Hs. destruct (c4_run self w Hs) as (w' & -> & Hs'). by apply Hs'.
Qed.

Lemma d3_keeps_sound self : text_roundtrip → steps keeps_sound (SPC_Constants.d3 self).
Proof.
  intros Hrt w Hs. destruct (d3_run self w Hs) as (w' & -> & Hs'). by apply Hs'.
Qed.

Lemma cache_keeps_sound name func (self : SPC_Constants.t) :
  steps keeps_sound (func self) →
  steps keeps_sound (SPC_Constants.cache name func self).
Proof.
  intros Hf w Hs. unfold SPC_Constants.cache.
  destruct (memo w !! _) as [v|]; [exact Hs|].
  specialize (Hf w Hs). destruct (func self w) as [v w']. exact Hf.
Qed.

Definition getter_ok (fget : SPC_Constants.t → M float) : Prop :=
  (∀ self, extending (fget self)) ∧
  (text_roundtrip → stable fget) ∧
  (text_roundtrip → ∀ self, steps keeps_sound (fget self)).

Lemma pure_getter_ok (g : SPC_Constants.t → float) : getter_ok (λ self, mret (g self)).
Proof.
  split; [|split].
  - intros self. apply steps_ret, _.
  - intros _ self w v w1 w2 [= <- <-] _. reflexivity.
  - intros _ self. apply steps_ret, _.
Qed.

Lemma d2_ok : getter_ok SPC_Constants.d2.
Proof.
  split; [|split].
  - apply d2_extending.
  - intros Hrt. by apply persistent_cache_stable.
  - intros Hrt self. by apply d2_keeps_sound.
Qed.

Lemma d3_ok : getter_ok SPC_Constants.d3.
Proof.
  split; [|split].
  - apply d3_extending.
  - intros Hrt. by apply persistent_cache_stable.
  - intros Hrt self. by apply d3_keeps_sound.
Qed.

Lemma c4_ok : getter_ok SPC_Constants.c4.
Proof.
  split; [|split].
  - apply c4_extending.
  - intros Hrt. by apply persistent_cache_stable.
  - intros Hrt self. by apply c4_keeps_sound.
Qed.

Lemma cached_getter_ok name func :
  (∀ self, extending (func self)) →
  (text_roundtrip → ∀ self, steps keeps_sound (func self)) →
  getter_ok (SPC_Constants.cache name func).
Proof.
  intros Hext Hks. split; [|split].
  - intros self. by apply cache_extending.
  - intros _. apply cache_stable.
  - intros Hrt self. apply cache_keeps_sound. by apply Hks.
Qed.

(** The body of a derived constant is a chain of reads of d2, d3 and c4. *)
Ltac chain_of_reads R read_d2 read_d3 read_c4 :=
  cbv beta;
  repeat lazymatch goal with
  | |- steps _ (mret _) => apply (steps_ret R)
  | |- steps _ (SPC_Constants.d2 _ ≫= _) => apply (steps_bind R); [apply read_d2 | intros ?]
  | |- steps _ (SPC_Constants.d3 _ ≫= _) => apply (steps_bind R); [apply read_d3 | intros ?]
  | |- steps _ (SPC_Constants.c4 _ ≫= _) => apply (steps_bind R); [apply read_c4 | intros ?]
  end.

Ltac derived_getter_ok :=
  apply cached_getter_ok;
  [ intros self; chain_of_reads extends d2_extending d3_extending c4_extending
  | let Hrt := fresh "Hrt" in
    intros Hrt self;
    chain_of_reads keeps_sound
      (λ s, d2_keeps_sound s Hrt) (λ s, d3_keeps_sound s Hrt) (λ s, c4_keeps_sound s Hrt) ].

Lemma properties_ok : Forall (λ p, getter_ok p.2) SPC_Constants.properties.
Proof.
  unfold SPC_Constants.properties.
  repeat apply Forall_cons_2; try apply Forall_nil_2; cbn [snd].
  1-2: apply pure_getter_ok.
  - exact d2_ok.
  - exact d3_ok.
  - exact c4_ok.
  - unfold SPC_Constants.c5. derived_getter_ok.
  - unfold SPC_Constants.A. derived_getter_ok.
  - unfold SPC_Constants.A2. derived_getter_ok.
  - unfold SPC_Constants.A3. derived_getter_ok.
  - unfold SPC_Constants.B3. derived_getter_ok.
  - unfold SPC_Constants.B4. derived_getter_ok.
  - unfold SPC_Constants.B5. derived_getter_ok.
  - unfold SPC_Constants.B6. derived_getter_ok.
  - unfold SPC_Constants.D1. derived_getter_ok.
  - unfold SPC_Constants.D2. derived_getter_ok.
  - unfold SPC_Constants.D3. derived_getter_ok.
  - unfold SPC_Constants.D4. derived_getter_ok.
  - unfold SPC_Constants.E2. derived_getter_ok.
  - unfold SPC_Constants.E3. derived_getter_ok.
Qed.

Lemma lookup_property_elem name ps (fget : SPC_Constants.t → M float) :
  SPC_Constants.lookup_property name ps = Some fget → ∃ k, (k, fget) ∈ ps.
Proof.
  induction ps as [|[k g] ps IH]; simpl; [discriminate|].
  destruct (String.eqb name k).
  - intros [= <-]. exists k. apply elem_of_cons. by left.
  - intros H. destruct (IH H) as [k' Hk']. exists k'. apply elem_of_cons. by right.
Qed.

Lemma lookup_property_ok name fget :
  SPC_Constants.lookup_property name SPC_Constants.properties = Some fget →
  getter_ok fget.
Proof.
  intros H. destruct (lookup_property_elem _ _ _ H) as [k Hk].
  pose proof properties_ok as Hall. rewrite Forall_forall in Hall.
  exact (Hall _ Hk).
Qed.

Lemma getattr_extends self name w : extends w (SPC_Constants.getattr self name w).2.
Proof.
  unfold SPC_Constants.getattr.
  destruct (SPC_Constants.lookup_property _ _) as [fget|] eqn:Hp.
  - destruct (lookup_property_ok _ _ Hp) as (Hext & _).
    specialize (Hext self w). destruct (fget self w) as [v w']. exact Hext.
  - repeat case_match; reflexivity.
Qed.

Lemma getattr_keeps_sound self name w :
  text_roundtrip → sound w → sound (SPC_Constants.getattr self name w).2.
Proof.
  intros Hrt Hs. unfold SPC_Constants.getattr.
  destruct (SPC_Constants.lookup_property _ _) as [fget|] eqn:Hp.
  - destruct (lookup_property_ok _ _ Hp) as (_ & _ & Hks).
    specialize (Hks Hrt self w Hs). destruct (fget self w) as [v w']. exact Hks.
  - repeat case_match; exact Hs.
Qed.


(** Any sequence of reads, on any instances. *)
Fixpoint run_reads (reads : list (SPC_Constants.t * string)) (w : World) : World :=
  match reads with
  | [] => w
  | (self, name) :: reads' => run_reads reads' (SPC_Constants.getattr self name w).2
  end.

Lemma run_reads_extends reads w : extends w (run_reads reads w).
Proof.
  revert w. induction reads as [|[self name] reads IH]; intros w; simpl.
  - reflexivity.
  - etransitivity; [apply getattr_extends | apply IH].
Qed.

Lemma run_reads_sound reads w :
  text_roundtrip → sound w → sound (run_reads reads w).
Proof.
  intros Hrt. revert w. induction reads as [|[self name] reads IH]; intros w Hs; simpl.
  - exact Hs.
  - apply IH. by apply getattr_keeps_sound.
Qed.

End Getters.

(** ** A runtime to run the program on

    [Oracle.runtime q] is an instance of the interface on which the
    accessors evaluate: its quadrature reports the value [q] for every
    integral, and its text format is an exact rendering of the binary64
    value, so that text reads back to the number it was written from. *)

Module Oracle.

Fixpoint put_positive (p : positive) (k : string) : string :=
  match p with
  | xH => String "."%char k
  | xO q => String "0"%char (put_positive q k)
  | xI q => String "1"%char (put_positive q k)
  end.

Fixpoint get_positive (s : string) : option (positive * string) :=
  match s with
  | EmptyString => None
  | String c k =>
      if Ascii.eqb c "."%char then Some (xH, k)
      else if Ascii.eqb c "0"%char then
        match get_positive k with Some (q, r) => Some (xO q, r) | None => None end
      else if Ascii.eqb c "1"%char then
        match get_positive k with Some (q, r) => Some (xI q, r) | None => None end
      else None
  end.

Definition put_Z (e : Z) (k : string) : string :=
  match e with
  | Z0 => String "e"%char k
  | Zpos p => String "+"%char (put_positive p k)
  | Zneg p => String "-"%char (put_positive p k)
  end.

Definition get_Z (s : string) : option (Z * string) :=
  match s with
  | EmptyString => None
  | String c k =>
      if Ascii.eqb c "e"%char then Some (Z0, k)
      else if Ascii.eqb c "+"%char then
        match get_positive k with Some (p, r) => Some (Zpos p, r) | None => None end
      else if Ascii.eqb c "-"%char then
        match get_positive k with Some (p, r) => Some (Zneg p, r) | None => None end
      else None
  end.

Definition format_sf (x : spec_float) : string :=
  match x with
  | S754_nan => "nan"
  | S754_infinity false => "inf"
  | S754_infinity true => "-inf"
  | S754_zero false => "0.0"
  | S754_zero true => "-0.0"
  | S754_finite s m e => String (if s then "m"%char else "p"%char) (put_positive m (put_Z e ""))
  end.

Definition parse_finite (s : bool) (k : string) : spec_float :=
  match get_positive k with
  | Some (m, r) =>
      match get_Z r with
      | Some (e, _) => S754_finite s m e
      | None => S754_nan
      end
  | None => S754_nan
  end.

Definition parse_sf (s : string) : spec_float :=
  match s with
  | EmptyString => S754_nan
  | String c k =>
      if Ascii.eqb c "p"%char then parse_finite false k
      else if Ascii.eqb c "m"%char then parse_finite true k
      else if String.eqb s "inf" then S754_infinity false
      else if String.eqb s "-inf" then S754_infinity true
      else if String.eqb s "0.0" then S754_zero false
      else if String.eqb s "-0.0" then S754_zero true
      else S754_nan
  end.

Definition format (x : float) : string := format_sf (Prim2SF x).
Definition parse (s : string) : float := SF2Prim (parse_sf s).

(** Squares only: the one power the accessors take outside an integrand. *)
Definition power (x y : float) : float :=
  if (y =? 2)%float then (x * x)%float else nan.

Definition runtime (q : float) : Runtime := {|
  norm_cdf := λ x, if (x <? 0)%float then 0%float else 1%float;
  quad := λ _ _ _, (q, 0%float);
  gammaln := λ _, 0%float;
  np_exp := λ x, (1 + x)%float;
  float_pow := power;
  format_float := format;
  parse_float := parse;
|}.

Lemma get_put_positive (p : positive) (k : string) :
  get_positive (put_positive p k) = Some (p, k).
Proof. induction p as [p IH|p IH|]; simpl; [rewrite IH..|]; reflexivity. Qed.

Lemma get_put_Z (e : Z) (k : string) : get_Z (put_Z e k) = Some (e, k).
Proof. destruct e; simpl; [|rewrite get_put_positive..]; reflexivity. Qed.

Lemma parse_format_sf (x : spec_float) : parse_sf (format_sf x) = x.
Proof.
  destruct x as [[]|[]| |[] m e]; try reflexivity;
    simpl; unfold parse_finite; rewrite get_put_positive, get_put_Z; reflexivity.
Qed.

Lemma roundtrip (q : float) : @text_roundtrip (runtime q).
Proof.
  intros x. simpl. unfold parse, format.
  rewrite parse_format_sf. apply SF2Prim_Prim2SF.
Qed.

End Oracle.

(** ** Lemmas for the claims *)

Section ClaimLemmas.
Context `{rt : Runtime}.
Open Scope float_scope.

Lemma cache_run_miss name func (self : SPC_Constants.t) (w : World) :
  memo w !! (name, SPC_Constants.oid self) = None →
  SPC_Constants.cache name func self w =
  let '(v, w') := func self w in (v, memo_put name (SPC_Constants.oid self) v w').
Proof. intros H. unfold SPC_Constants.cache. by rewrite H. Qed.

(** The persistent cache never touches the memo tables. *)
Lemma persistent_cache_memo db_path func (self : SPC_Constants.t) (w : World) :
  memo (func self w).2 = memo w →
  memo (SPC_Constants.persistent_cache db_path func self w).2 = memo w.
Proof.
  intros Hf. rewrite persistent_cache_run.
  destruct (db_of db_path w !! _); [reflexivity|].
  destruct (func self w) as [v w']. exact Hf.
Qed.

Lemma c4_memo self w : memo (SPC_Constants.c4 self w).2 = memo w.
Proof. by apply persistent_cache_memo. Qed.

Lemma d2_reads_only_n (s1 s2 : SPC_Constants.t) (w : World) :
  SPC_Constants.n s1 = SPC_Constants.n s2 →
  SPC_Constants.d2 s1 w = SPC_Constants.d2 s2 w.
Proof. destruct s1, s2; simpl; intros ->. reflexivity. Qed.

Lemma d3_reads_only_n (s1 s2 : SPC_Constants.t) (w : World) :
  SPC_Constants.n s1 = SPC_Constants.n s2 →
  SPC_Constants.d3 s1 w = SPC_Constants.d3 s2 w.
Proof. destruct s1, s2; simpl; intros ->. reflexivity. Qed.

Lemma two_le_not_below (x : float) : (2 <=? x) = true → (x <? 2) = false.
Proof.
  rewrite leb_spec, ltb_spec.
  change (Prim2SF 2) with (S754_finite false 4503599627370496 (-51)).
  generalize 4503599627370496%positive, (-51)%Z. intros m2 e2.
  unfold SFleb, SFltb, SFcompare.
  destruct (Prim2SF x) as [[]|[]| |[] m e]; try discriminate; try reflexivity.
  rewrite (Z.compare_antisym e2 e).
  destruct (e2 ?= e)%Z; cbn [CompOpp]; try discriminate; try reflexivity.
  pose proof (Pos.compare_cont_antisym m2 m Eq) as Hanti. cbn [CompOpp] in Hanti.
  rewrite <- Hanti.
  destruct (Pos.compare_cont Eq m2 m); cbn [CompOpp]; try discriminate; reflexivity.
Qed.

End ClaimLemmas.

(** Reads on sound caches, one after the other. *)
Ltac read_on_sound Hrt :=
  match goal with
  | Hs : sound ?w |- context [SPC_Constants.d2 ?s ?w] =>
      let w' := fresh "w" in let Hs' := fresh "Hs" in
      destruct (d2_run s w Hs) as (w' & -> & Hs'); specialize (Hs' Hrt)
  | Hs : sound ?w |- context [SPC_Constants.d3 ?s ?w] =>
      let w' := fresh "w" in let Hs' := fresh "Hs" in
      destruct (d3_run s w Hs) as (w' & -> & Hs'); specialize (Hs' Hrt)
  | Hs : sound ?w |- context [SPC_Constants.c4 ?s ?w] =>
      let w' := fresh "w" in let Hs' := fresh "Hs" in
      destruct (c4_run s w Hs) as (w' & -> & Hs'); specialize (Hs' Hrt)
  end.

Ltac first_read Hfresh :=
  rewrite cache_run_miss by apply Hfresh; unfold mbind, M_bind; cbv beta.

(** ** More floating-point facts *)

Section MoreFloatFacts.
Open Scope float_scope.

Lemma float_is_nan (x : float) : Prim2SF x = S754_nan → x = nan.
Proof. intros E. rewrite <- (SF2Prim_Prim2SF x), E. reflexivity. Qed.

Lemma mul_nan_r (x : float) : x * nan = nan.
Proof.
  apply float_is_nan. rewrite mul_spec.
  change (Prim2SF nan) with S754_nan. by destruct (Prim2SF x) as [[]|[]| |[] m e].
Qed.

Lemma add_nan_r (x : float) : x + nan = nan.
Proof.
  apply float_is_nan. rewrite add_spec.
  change (Prim2SF nan) with S754_nan. by destruct (Prim2SF x) as [[]|[]| |[] m e].
Qed.

Lemma sub_nan_r (x : float) : x - nan = nan.
Proof.
  apply float_is_nan. rewrite sub_spec.
  change (Prim2SF nan) with S754_nan. by destruct (Prim2SF x) as [[]|[]| |[] m e].
Qed.

Lemma div_nan_l (x : float) : nan / x = nan.
Proof.
  apply float_is_nan. rewrite div_spec.
  change (Prim2SF nan) with S754_nan. by destruct (Prim2SF x) as [[]|[]| |[] m e].
Qed.

Lemma max_0_cases (x : float) : max_ 0 x = 0 ∨ (0 <? max_ 0 x) = true.
Proof. unfold max_. destruct (0 <? x) eqn:Hx; [right; exact Hx | left; reflexivity]. Qed.

Lemma not_below_two (x : float) : (x <? 2) = false ↔ (2 <=? x) = true ∨ x = nan.
Proof.
  split.
  - rewrite leb_spec, ltb_spec.
    change (Prim2SF 2) with (S754_finite false 4503599627370496 (-51)).
    generalize 4503599627370496%positive, (-51)%Z. intros m2 e2.
    unfold SFleb, SFltb, SFcompare.
    destruct (Prim2SF x) as [[]|[]| |[] m e] eqn:E; try discriminate; auto.
    + intros _. right. by apply float_is_nan.
    + rewrite (Z.compare_antisym e2 e).
      destruct (e2 ?= e)%Z; cbn [CompOpp]; try discriminate; auto.
      pose proof (Pos.compare_cont_antisym m2 m Eq) as Hanti. cbn [CompOpp] in Hanti.
      rewrite <- Hanti.
      destruct (Pos.compare_cont Eq m2 m); cbn [CompOpp]; try discriminate; auto.
  - intros [H| ->]; [by apply two_le_not_below | reflexivity].
Qed.

Lemma not_at_most_zero (x : float) : (x <=? 0) = false ↔ (0 <? x) = true ∨ x = nan.
Proof.
  split.
  - rewrite leb_spec, ltb_spec. change (Prim2SF 0) with (S754_zero false).
    destruct (Prim2SF x) as [[]|[]| |[] m e] eqn:E; try discriminate; auto.
    intros _. right. by apply float_is_nan.
  - intros [H| ->]; [|reflexivity].
    rewrite leb_spec. rewrite ltb_spec in H. change (Prim2SF 0) with (S754_zero false) in *.
    by destruct (Prim2SF x) as [[]|[]| |[] m e].
Qed.

End MoreFloatFacts.

(** ** What a read leaves alone: lemmas *)

(** Two preorders on worlds: the file at [p] is kept as it is, and the memo
    table is kept as it is at [key]. *)
Definition keeps_db (p : string) (w w' : World) : Prop := db_of p w' = db_of p w.

Definition keeps_memo_at (key : string * positive) (w w' : World) : Prop :=
  memo w' !! key = memo w !! key.

#[export] Instance keeps_db_preorder p : PreOrder (keeps_db p).
Proof.
  split; [intros w; reflexivity|].
  intros w1 w2 w3 H12 H23. unfold keeps_db in *. by rewrite H23.
Qed.

#[export] Instance keeps_memo_at_preorder key : PreOrder (keeps_memo_at key).
Proof.
  split; [intros w; reflexivity|].
  intros w1 w2 w3 H12 H23. unfold keeps_memo_at in *. by rewrite H23.
Qed.

Section Frames.
Context `{rt : Runtime}.

Lemma persistent_cache_keeps_db p db_path func (self : SPC_Constants.t) :
  p ≠ db_path →
  steps (keeps_db p) (func self) →
  steps (keeps_db p) (SPC_Constants.persistent_cache db_path func self).
Proof.
  intros Hp Hf w. rewrite persistent_cache_run.
  destruct (db_of db_path w !! _); [reflexivity|].
  specialize (Hf w). destruct (func self w) as [v w']. simpl in *.
  unfold keeps_db in *. by rewrite db_of_dbm_put, decide_False.
Qed.

Lemma cache_keeps_db p name func (self : SPC_Constants.t) :
  steps (keeps_db p) (func self) →
  steps (keeps_db p) (SPC_Constants.cache name func self).
Proof.
  intros Hf w. unfold SPC_Constants.cache.
  destruct (memo w !! _); [reflexivity|].
  specialize (Hf w). destruct (func self w) as [v w']. exact Hf.
Qed.

Lemma persistent_cache_keeps_memo key db_path func (self : SPC_Constants.t) :
  steps (keeps_memo_at key) (func self) →
  steps (keeps_memo_at key) (SPC_Constants.persistent_cache db_path func self).
Proof.
  intros Hf w. rewrite persistent_cache_run.
  destruct (db_of db_path w !! _); [reflexivity|].
  specialize (Hf w). destruct (func self w) as [v w']. exact Hf.
Qed.

Lemma cache_keeps_memo key name func (self : SPC_Constants.t) :
  key ≠ (name, SPC_Constants.oid self) →
  steps (keeps_memo_at key) (func self) →
  steps (keeps_memo_at key) (SPC_Constants.cache name func self).
Proof.
  intros Hkey Hf w. unfold SPC_Constants.cache.
  destruct (memo w !! (name, _)); [reflexivity|].
  specialize (Hf w). destruct (func self w) as [v w']. simpl in *.
  unfold keeps_memo_at in *. simpl. by rewrite lookup_insert_ne.
Qed.

Lemma d2_keeps_db p self :
  p ≠ ".cache.d2.dbm" → steps (keeps_db p) (SPC_Constants.d2 self).
Proof.
  intros Hp. apply persistent_cache_keeps_db; [exact Hp|]. intros w. cbv beta zeta.
  destruct (quad _ neg_infinity infinity). reflexivity.
Qed.

Lemma c4_keeps_db p self :
  p ≠ ".cache.c4.dbm" → steps (keeps_db p) (SPC_Constants.c4 self).
Proof.
  intros Hp. apply persistent_cache_keeps_db; [exact Hp|]. intros w. reflexivity.
Qed.

Lemma d3_keeps_db p self :
  p ≠ ".cache.d2.dbm" → p ≠ ".cache.d3.dbm" → steps (keeps_db p) (SPC_Constants.d3 self).
Proof.
  intros Hp2 Hp3. apply persistent_cache_keeps_db; [exact Hp3|]. cbv beta zeta.
  destruct (quad _ neg_infinity infinity).
  apply steps_bind; [apply _ | by apply d2_keeps_db | intros a; apply steps_ret, _].
Qed.

Lemma d2_keeps_memo key self : steps (keeps_memo_at key) (SPC_Constants.d2 self).
Proof.
  apply persistent_cache_keeps_memo. intros w. cbv beta zeta.
  destruct (quad _ neg_infinity infinity). reflexivity.
Qed.

Lemma c4_keeps_memo key self : steps (keeps_memo_at key) (SPC_Constants.c4 self).
Proof. apply persistent_cache_keeps_memo. intros w. reflexivity. Qed.

Lemma d3_keeps_memo key self : steps (keeps_memo_at key) (SPC_Constants.d3 self).
Proof.
  apply persistent_cache_keeps_memo. cbv beta zeta.
  destruct (quad _ neg_infinity infinity).
  apply steps_bind; [apply _ | apply d2_keeps_memo | intros a; apply steps_ret, _].
Qed.

End Frames.

(** A chain of reads of d2, d3 and c4 steps along [R] when each read does. *)
Ltac chain_steps R read_d2 read_d3 read_c4 :=
  cbv beta;
  repeat lazymatch goal with
  | |- steps _ (mret _) => apply (steps_ret R)
  | |- steps _ (SPC_Constants.d2 _ ≫= _) => apply (steps_bind R); [apply read_d2 | intros ?]
  | |- steps _ (SPC_Constants.d3 _ ≫= _) => apply (steps_bind R); [apply read_d3 | intros ?]
  | |- steps _ (SPC_Constants.c4 _ ≫= _) => apply (steps_bind R); [apply read_c4 | intros ?]
  end.

Lemma lookup_property_named `{rt : Runtime} name ps (fget : SPC_Constants.t → M float) :
  SPC_Constants.lookup_property name ps = Some fget → (name, fget) ∈ ps.
Proof.
  induction ps as [|[k g] ps IH]; simpl; [discriminate|].
  destruct (String.eqb name k) eqn:Hk.
  - intros [= <-]. apply String.eqb_eq in Hk as ->. apply elem_of_cons. by left.
  - intros H. apply elem_of_cons. right. by apply IH.
Qed.

Lemma properties_memoise_their_own_name `{rt : Runtime} :
  Forall (λ p : string * (SPC_Constants.t → M float),
            ∀ self key, key ≠ (p.1, SPC_Constants.oid self) →
                        steps (keeps_memo_at key) (p.2 self))
    SPC_Constants.properties.
Proof.
  unfold SPC_Constants.properties.
  repeat apply Forall_cons_2; try apply Forall_nil_2; cbn [fst snd]; intros self key Hkey.
  1-2: apply steps_ret, _.
  1: apply d2_keeps_memo.
  1: apply d3_keeps_memo.
  1: apply c4_keeps_memo.
  all: apply (cache_keeps_memo key); [exact Hkey|];
    chain_steps (keeps_memo_at key) (d2_keeps_memo key) (d3_keeps_memo key)
      (c4_keeps_memo key).
Qed.

(** ** The table of the derived constants

    The formulas of the specification's table, with A2 and A3 grouped as
    the code groups them; the theorems below compare them with what the
    accessors return, at the first read and at every later one. *)

Section Table.
Context `{rt : Runtime}.
Open Scope float_scope.

(** The memoised constants by name, each with its formula over n, z and
    the formulas of c4, d2 and d3; c5 stands for sqrt(1 − c4²). *)
Definition table (self : SPC_Constants.t) : list (string * float) :=
  let n := SPC_Constants.n self in
  let z := SPC_Constants.z self in
  let c4 := spec_c4 n in
  let c5 := sqrt (1 - float_pow c4 2) in
  let d2 := spec_d2 n in
  let d3 := spec_d3 n in
  [ ("c5", c5); ("A", z / sqrt n); ("A2", z / d2 / sqrt n); ("A3", z / c4 / sqrt n);
    ("B3", max_ 0 (1 - (z / c4) * c5)); ("B4", 1 + (z / c4) * c5);
    ("B5", max_ 0 (c4 - z * c5)); ("B6", c4 + z * c5);
    ("D1", max_ 0 (d2 - z * d3)); ("D2", d2 + z * d3);
    ("D3", max_ 0 (1 - z * d3 / d2)); ("D4", 1 + z * d3 / d2);
    ("E2", z / d2); ("E3", z / c4) ].

(** What [functools.cache] holds for [self] agrees with the table. *)
Definition memo_ok (self : SPC_Constants.t) (w : World) : Prop :=
  Forall (λ e : string * float,
            ∀ v, memo w !! (e.1, SPC_Constants.oid self) = Some v → v = e.2)
    (table self).

(** A new object has no entry in any memo table. *)
Lemma fresh_memo_ok self w :
  (∀ name, memo w !! (name, SPC_Constants.oid self) = None) → memo_ok self w.
Proof.
  intros Hfresh. apply Forall_forall. intros e _ v Hv.
  rewrite Hfresh in Hv. discriminate Hv.
Qed.

(** A memoised getter returns [e], and holds [e] afterwards, when its table
    holds nothing else for the instance and its body computes [e]. *)
Lemma cache_read name func (self : SPC_Constants.t) (w : World) (e : float) :
  (∀ v, memo w !! (name, SPC_Constants.oid self) = Some v → v = e) →
  (func self w).1 = e →
  (SPC_Constants.cache name func self w).1 = e ∧
  memo (SPC_Constants.cache name func self w).2 !! (name, SPC_Constants.oid self) = Some e.
Proof.
  intros Hm Hf. unfold SPC_Constants.cache.
  destruct (memo w !! (name, _)) as [v|] eqn:Hv.
  - rewrite (Hm v eq_refl) in *. split; [reflexivity | exact Hv].
  - destruct (func self w) as [v w']. simpl in Hf. subst v.
    split; [reflexivity | apply lookup_insert_eq].
Qed.

End Table.

(** One line of the table: the getter of that name, read on sound caches. *)
Ltac table_entry Hrt :=
  eexists; split; [reflexivity|];
  apply cache_read; [assumption|];
  unfold mbind, M_bind; cbv beta;
  repeat read_on_sound Hrt; reflexivity.

(** The value of one line, once the getter of its name is looked up. *)
Ltac table_value H :=
  let g := fresh "g" in let Hg := fresh "Hg" in let Hv := fresh "Hv" in
  destruct H as (g & Hg & Hv & _);
  cbv beta iota delta [SPC_Constants.lookup_property SPC_Constants.properties
                       String.eqb Ascii.eqb Bool.eqb] in Hg;
  injection Hg as <-; exact Hv.

Section TableReads.
Context `{rt : Runtime}.
Open Scope float_scope.

(** On sound caches, and memo tables that agree with the table, every
    derived constant is read as the table has it, and is memoised so. *)
Lemma table_read (self : SPC_Constants.t) (w : World) :
  text_roundtrip → sound w → memo_ok self w →
  Forall (λ e : string * float,
            ∃ g, SPC_Constants.lookup_property e.1 SPC_Constants.properties = Some g ∧
                 (g self w).1 = e.2 ∧
                 memo (g self w).2 !! (e.1, SPC_Constants.oid self) = Some e.2)
    (table self).
Proof.
  intros Hrt Hs Hm. unfold memo_ok, table in *. cbv zeta in *.
  rewrite !Forall_cons in Hm.
  destruct Hm as (? & ? & ? & ? & ? & ? & ? & ? & ? & ? & ? & ? & ? & ? & _).
  cbn [fst snd] in *.
  repeat apply Forall_cons_2; try apply Forall_nil_2; cbn [fst snd].
  all: table_entry Hrt.
Qed.

(** A read, of any field of any instance, keeps the memo tables in
    agreement with the table of [self]: it memoises under its own name and
    its own instance only.  Two objects are one when their identities are. *)
Lemma getattr_keeps_memo_ok (self s : SPC_Constants.t) (name : string) (w : World) :
  text_roundtrip → sound w →
  (SPC_Constants.oid s = SPC_Constants.oid self → s = self) →
  memo_ok self w → memo_ok self (SPC_Constants.getattr s name w).2.
Proof.
  intros Hrt Hs Hid Hm. unfold SPC_Constants.getattr.
  destruct (SPC_Constants.lookup_property _ _) as [fget|] eqn:Hp;
    [|repeat case_match; exact Hm].
  pose proof (table_read self w Hrt Hs Hm) as Hread.
  unfold memo_ok in *. rewrite Forall_forall in Hm, Hread |- *.
  intros e He v.
  destruct (decide ((e.1, SPC_Constants.oid self) = (name, SPC_Constants.oid s)))
    as [[= Hname Hoid]|Hkey].
  - rewrite (Hid (eq_sym Hoid)) in *. clear Hid Hoid.
    destruct (Hread e He) as (g & Hg & _ & Hmemo).
    rewrite Hname, Hp in Hg. injection Hg as <-.
    destruct (fget self w) as [v' w']. cbn [snd] in *.
    rewrite Hmemo. by intros [= <-].
  - pose proof properties_memoise_their_own_name as Hown.
    rewrite Forall_forall in Hown.
    specialize (Hown _ (lookup_property_named _ _ _ Hp) s _ Hkey w).
    unfold keeps_memo_at in Hown. cbn [fst snd] in Hown.
    destruct (fget s w) as [v' w']. cbn [snd] in *.
    rewrite Hown. apply (Hm e He).
Qed.

Lemma run_reads_memo_ok (self : SPC_Constants.t) reads (w : World) :
  text_roundtrip → sound w →
  Forall (λ r : SPC_Constants.t * string,
            SPC_Constants.oid r.1 = SPC_Constants.oid self → r.1 = self) reads →
  memo_ok self w → memo_ok self (run_reads reads w).
Proof.
  intros Hrt Hs Hids. revert w Hs.
  induction Hids as [|[s name] reads Hid Hids IH]; intros w Hs Hm; simpl.
  - exact Hm.
  - apply IH.
    + by apply getattr_keeps_sound.
    + by apply getattr_keeps_memo_ok.
Qed.

End TableReads.

(** ** Concrete inputs *)

(** The nineteen read-only fields of an instance. *)
Definition fields : list string :=
  [ "n"; "z"; "c4"; "c5"; "d2"; "d3"; "A"; "A2"; "A3";
    "B3"; "B4"; "B5"; "B6"; "D1"; "D2"; "D3"; "D4"; "E2"; "E3" ].

(** The value that the docstring of the module reports for d2 at n = 2:
    1.1283791670955128. *)
Definition docstring_d2 : float := 0x1.20dd750429b6ep+0%float.

(** [SPC_Constants(2, z=3)], the instance of the docstring. *)
Definition example : SPC_Constants.t :=
  {| SPC_Constants.oid := 1; SPC_Constants._sample_size := 2%float;
     SPC_Constants._sigma_limit := 3%float |}.

(** The same sample size with another multiplier. *)
Definition example' : SPC_Constants.t :=
  {| SPC_Constants.oid := 2; SPC_Constants._sample_size := 2%float;
     SPC_Constants._sigma_limit := 2.5%float |}.

(** A runtime whose quadrature reports the docstring's d2 ... *)
Definition docstring_runtime : Runtime := Oracle.runtime docstring_d2.
(** ... and one whose quadrature is so far off that 2 · 3 − 3² < 0. *)
Definition loose_runtime : Runtime := Oracle.runtime 3%float.

(** The value that the docstring reports for c4 at n = 2:
    0.7978845608028655, which is sqrt(2) times the gamma ratio
    0.5641895835477564. *)
Definition docstring_c4 : float := 0x1.9884533d43652p-1%float.
Definition docstring_ratio : float := 0x1.20dd750429b6ep-1%float.

(** [docstring_runtime] with an exponential that reports that ratio. *)
Definition docstring_c4_runtime : Runtime := {|
  norm_cdf := @norm_cdf docstring_runtime;
  quad := @quad docstring_runtime;
  gammaln := @gammaln docstring_runtime;
  np_exp := λ _, docstring_ratio;
  float_pow := @float_pow docstring_runtime;
  format_float := @format_float docstring_runtime;
  parse_float := @parse_float docstring_runtime;
|}.

(** [SPC_Constants(2, z=2)]. *)
Definition example_of_two_sigma : SPC_Constants.t :=
  {| SPC_Constants.oid := 5; SPC_Constants._sample_size := 2%float;
     SPC_Constants._sigma_limit := 2%float |}.



(** Some reads on the two instances of sample size 2. *)
Definition example_reads : list (SPC_Constants.t * string) :=
  [(example, "c5"); (example', "A2"); (example, "D1"); (example, "A2")].

(** ** The claims of the specification *)

Local Open Scope float_scope.

(** C1.  On sound caches (empty ones, or any that the accessors have
    written), the d2 accessor of every instance returns the value that
    [quad] reports for the integrand 1 − (1−Φ(x))^n − Φ(x)^n between the
    limits −∞ and +∞. *)
Theorem d2_is_the_integral_over_the_real_line `{rt : Runtime} (self : SPC_Constants.t) (w : World) :
  sound w →
  (SPC_Constants.d2 self w).1 =
  (quad (λ x, 1 - float_pow (1 - norm_cdf x) (SPC_Constants.n self)
                - float_pow (norm_cdf x) (SPC_Constants.n self))
        neg_infinity infinity).1.
Proof.
  intros Hs. destruct (d2_run self w Hs) as (w' & -> & _). reflexivity.
Qed.

Lemma d2_is_the_integral_over_the_real_line_witness :
  @sound docstring_runtime empty_world ∧
  (@SPC_Constants.d2 docstring_runtime example empty_world).1 = docstring_d2.
Proof.
  split; [apply sound_empty_world|].
  apply (@d2_is_the_integral_over_the_real_line docstring_runtime example empty_world).
  apply sound_empty_world.
Defined.

(** C2.  On sound caches the d3 accessor returns
    sqrt(2 · outer − d2²), where d2 is the value of the instance's d2
    accessor, outer is what [quad] reports for inner(y) between −∞ and +∞,
    and inner(y) is what a further call of [quad] reports for
    f(x, y) = 1 − Φ(y)^n − (1−Φ(x))^n + (Φ(y)−Φ(x))^n over x between −∞
    and y. *)
Theorem d3_is_the_nested_integral `{rt : Runtime} (self : SPC_Constants.t) (w : World) :
  sound w →
  (SPC_Constants.d3 self w).1 =
  sqrt (2 * (quad (λ y,
               (quad (λ x, 1 - float_pow (norm_cdf y) (SPC_Constants.n self)
                             - float_pow (1 - norm_cdf x) (SPC_Constants.n self)
                             + float_pow (norm_cdf y - norm_cdf x) (SPC_Constants.n self))
                     neg_infinity y).1)
               neg_infinity infinity).1
        - float_pow (SPC_Constants.d2 self w).1 2).
Proof.
  intros Hs.
  destruct (d3_run self w Hs) as (w3 & -> & _).
  destruct (d2_run self w Hs) as (w2 & -> & _).
  reflexivity.
Qed.

Lemma d3_is_the_nested_integral_witness :
  @sound docstring_runtime empty_world ∧
  (@SPC_Constants.d3 docstring_runtime example empty_world).1 =
  sqrt (2 * docstring_d2 - docstring_d2 * docstring_d2).
Proof.
  split; [apply sound_empty_world|].
  apply (@d3_is_the_nested_integral docstring_runtime example empty_world).
  apply sound_empty_world.
Defined.




(** C4.  The first read of c5 on an instance reads the instance's c4 and
    returns sqrt(1 − c4²) of that very value; and from then on, in every
    later world, c5 equals sqrt(1 − c4²) for the value the c4 accessor
    returns there. *)
Theorem c5_is_computed_from_c4 `{rt : Runtime} (self : SPC_Constants.t) (w : World) :
  text_roundtrip →
  memo w !! ("c5", SPC_Constants.oid self) = None →
  ∃ c4_ w1 w2,
    SPC_Constants.c4 self w = (c4_, w1) ∧
    SPC_Constants.c5 self w = (sqrt (1 - float_pow c4_ 2), w2) ∧
    ∀ w3, extends w2 w3 →
      (SPC_Constants.c5 self w3).1 =
      sqrt (1 - float_pow (SPC_Constants.c4 self w3).1 2).
Proof.
  intros Hrt Hfresh.
  destruct (SPC_Constants.c4 self w) as [c4_ w1] eqn:Hc4.
  set (v := sqrt (1 - float_pow c4_ 2)).
  assert (Hc5 : SPC_Constants.c5 self w = (v, memo_put "c5" (SPC_Constants.oid self) v w1)).
  { unfold SPC_Constants.c5. rewrite cache_run_miss by exact Hfresh.
    unfold mbind, M_bind. rewrite Hc4. reflexivity. }
  exists c4_, w1, (memo_put "c5" (SPC_Constants.oid self) v w1).
  split; [reflexivity|]. split; [exact Hc5|].
  intros w3 Hext.
  assert (Hext1 : extends w1 w3).
  { etransitivity; [|exact Hext]. apply extends_memo_put; [reflexivity|].
    pose proof (c4_memo self w) as Hm. rewrite Hc4 in Hm. simpl in Hm.
    by rewrite Hm. }
  unfold SPC_Constants.c5 in Hc5 |- *.
  rewrite (cache_stable _ _ _ _ _ _ _ Hc5 Hext).
  unfold SPC_Constants.c4 in Hc4 |- *.
  rewrite (persistent_cache_stable _ _ Hrt _ _ _ _ _ Hc4 Hext1).
  reflexivity.
Qed.

Lemma c5_is_computed_from_c4_witness :
  @text_roundtrip docstring_runtime ∧
  memo empty_world !! ("c5", SPC_Constants.oid example) = None ∧
  ∃ c4_ w1 w2,
    @SPC_Constants.c4 docstring_runtime example empty_world = (c4_, w1) ∧
    @SPC_Constants.c5 docstring_runtime example empty_world
      = (sqrt (1 - c4_ * c4_), w2) ∧
    ∀ w3, extends w2 w3 →
      (@SPC_Constants.c5 docstring_runtime example w3).1 =
      sqrt (1 - (@SPC_Constants.c4 docstring_runtime example w3).1
                * (@SPC_Constants.c4 docstring_runtime example w3).1).
Proof.
  split; [apply Oracle.roundtrip|]. split; [reflexivity|].
  apply (@c5_is_computed_from_c4 docstring_runtime example empty_world).
  - apply Oracle.roundtrip.
  - reflexivity.
Defined.

(** Two runs with n = 2.  The docstring's run, [SPC_Constants(2, z=3)]:
    A2 is 1.8799712059732498, which is (3 / d2) / sqrt(2); the quotient
    3 / (d2 · sqrt(2)) is the next binary64 number, which Python prints as
    1.87997120597325.  And [SPC_Constants(2, z=2)], with the docstring's
    c4 = 0.7978845608028655: A3 is (2 / c4) / sqrt(2) =
    1.7724538509055154, and 2 / (c4 · sqrt(2)) is the next binary64
    number, 1.7724538509055157. *)
Lemma A2_and_A3_are_not_z_over_the_product :
  ((@SPC_Constants.d2 docstring_runtime example empty_world).1 = docstring_d2 ∧
   (@SPC_Constants.A2 docstring_runtime example empty_world).1
   ≠ SPC_Constants.z example
     / ((@SPC_Constants.d2 docstring_runtime example empty_world).1
        * sqrt (SPC_Constants.n example))) ∧
  ((@SPC_Constants.c4 docstring_c4_runtime example_of_two_sigma empty_world).1
     = docstring_c4 ∧
   (@SPC_Constants.A3 docstring_c4_runtime example_of_two_sigma empty_world).1
     = 0x1.c5bf891b4ef68p+0 ∧
   SPC_Constants.z example_of_two_sigma
     / ((@SPC_Constants.c4 docstring_c4_runtime example_of_two_sigma empty_world).1
        * sqrt (SPC_Constants.n example_of_two_sigma))
     = 0x1.c5bf891b4ef69p+0 ∧
   (@SPC_Constants.A3 docstring_c4_runtime example_of_two_sigma empty_world).1
   ≠ SPC_Constants.z example_of_two_sigma
     / ((@SPC_Constants.c4 docstring_c4_runtime example_of_two_sigma empty_world).1
        * sqrt (SPC_Constants.n example_of_two_sigma))).
Proof.
  split; split; [vm_compute; reflexivity| |vm_compute; reflexivity|].
  - intros H. vm_compute in H.
    apply (f_equal Prim2SF) in H. vm_compute in H. discriminate H.
  - split; [vm_compute; reflexivity|]. split; [vm_compute; reflexivity|].
    intros H. vm_compute in H.
    apply (f_equal Prim2SF) in H. vm_compute in H. discriminate H.
Qed.

(** C5, as the code has it.  Take an instance from its construction, when
    [functools.cache] holds nothing for it, on sound caches, and let any
    reads follow, on this instance and on others.  Then every derived
    constant of the instance, read for the first time or again, is the
    formula of the table over the instance's n, z, c4, c5, d2 and d3,
    where A2 is (z/d2)/sqrt(n) and A3 is (z/c4)/sqrt(n); B3, B5, D1 and
    D3, and no other, are passed through [max(0, ·)], which is 0 on a
    negative value and the value itself on a positive one. *)
Theorem derived_constants_follow_the_table `{rt : Runtime}
    (self : SPC_Constants.t) (w0 : World) (reads : list (SPC_Constants.t * string)) :
  text_roundtrip →
  sound w0 →
  (∀ name, memo w0 !! (name, SPC_Constants.oid self) = None) →
  Forall (λ r : SPC_Constants.t * string,
            SPC_Constants.oid r.1 = SPC_Constants.oid self → r.1 = self) reads →
  let w := run_reads reads w0 in
  let n := SPC_Constants.n self in
  let z := SPC_Constants.z self in
  let c4 := (SPC_Constants.c4 self w).1 in
  let c5 := (SPC_Constants.c5 self w).1 in
  let d2 := (SPC_Constants.d2 self w).1 in
  let d3 := (SPC_Constants.d3 self w).1 in
  (SPC_Constants.A self w).1 = z / sqrt n ∧
  (SPC_Constants.A2 self w).1 = z / d2 / sqrt n ∧
  (SPC_Constants.A3 self w).1 = z / c4 / sqrt n ∧
  (SPC_Constants.B3 self w).1 = max_ 0 (1 - (z / c4) * c5) ∧
  (SPC_Constants.B4 self w).1 = 1 + (z / c4) * c5 ∧
  (SPC_Constants.B5 self w).1 = max_ 0 (c4 - z * c5) ∧
  (SPC_Constants.B6 self w).1 = c4 + z * c5 ∧
  (SPC_Constants.D1 self w).1 = max_ 0 (d2 - z * d3) ∧
  (SPC_Constants.D2 self w).1 = d2 + z * d3 ∧
  (SPC_Constants.D3 self w).1 = max_ 0 (1 - z * d3 / d2) ∧
  (SPC_Constants.D4 self w).1 = 1 + z * d3 / d2 ∧
  (SPC_Constants.E2 self w).1 = z / d2 ∧
  (SPC_Constants.E3 self w).1 = z / c4 ∧
  (∀ x, ((x <? 0) = true → max_ 0 x = 0) ∧ ((0 <? x) = true → max_ 0 x = x)).
Proof.
  intros Hrt Hs0 Hfresh Hids w n z c4 c5 d2 d3.
  assert (Hs : sound w) by by apply run_reads_sound.
  assert (Hm : memo_ok self w).
  { apply run_reads_memo_ok; [done..|]. by apply fresh_memo_ok. }
  pose proof (table_read self w Hrt Hs Hm) as Htable.
  unfold table in Htable. cbv zeta in Htable. rewrite !Forall_cons in Htable.
  cbn [fst snd] in Htable.
  destruct Htable as (Hc5 & HA & HA2 & HA3 & HB3 & HB4 & HB5 & HB6 &
                      HD1 & HD2 & HD3 & HD4 & HE2 & HE3 & _).
  assert (Ec5 : c5 = sqrt (1 - float_pow (spec_c4 n) 2)) by (subst c5; table_value Hc5).
  assert (Ec4 : c4 = spec_c4 n).
  { subst c4. read_on_sound Hrt. reflexivity. }
  assert (Ed2 : d2 = spec_d2 n).
  { subst d2. read_on_sound Hrt. reflexivity. }
  assert (Ed3 : d3 = spec_d3 n).
  { subst d3. read_on_sound Hrt. reflexivity. }
  rewrite Ec5, Ec4, Ed2, Ed3. clear Ec5 Ec4 Ed2 Ed3 c4 c5 d2 d3 Hc5.
  split; [table_value HA|]. split; [table_value HA2|]. split; [table_value HA3|].
  split; [table_value HB3|]. split; [table_value HB4|]. split; [table_value HB5|].
  split; [table_value HB6|]. split; [table_value HD1|]. split; [table_value HD2|].
  split; [table_value HD3|]. split; [table_value HD4|]. split; [table_value HE2|].
  split; [table_value HE3|].
  intros x. split; [apply max_0_negative | apply max_0_positive].
Qed.

Lemma derived_constants_follow_the_table_witness :
  @text_roundtrip docstring_runtime ∧
  @sound docstring_runtime empty_world ∧
  (∀ name : string, memo empty_world !! (name, SPC_Constants.oid example) = None) ∧
  Forall (λ r : SPC_Constants.t * string,
            SPC_Constants.oid r.1 = SPC_Constants.oid example → r.1 = example)
    example_reads ∧
  (@SPC_Constants.A2 docstring_runtime example
     (@run_reads docstring_runtime example_reads empty_world)).1
    = 3 / docstring_d2 / sqrt 2 ∧
  (@SPC_Constants.D1 docstring_runtime example
     (@run_reads docstring_runtime example_reads empty_world)).1
    = max_ 0 (docstring_d2 - 3 * sqrt (2 * docstring_d2 - docstring_d2 * docstring_d2)).
Proof.
  assert (Hids : Forall (λ r : SPC_Constants.t * string,
            SPC_Constants.oid r.1 = SPC_Constants.oid example → r.1 = example)
            example_reads).
  { repeat constructor; cbn [fst]; intros H; try reflexivity; discriminate H. }
  split; [apply Oracle.roundtrip|]. split; [apply sound_empty_world|].
  split; [intros name; reflexivity|]. split; [exact Hids|].
  pose proof (@derived_constants_follow_the_table docstring_runtime example empty_world
                example_reads (Oracle.roundtrip _) sound_empty_world
                (λ name, eq_refl) Hids) as H.
  cbv zeta in H.
  destruct H as (_ & HA2 & _ & _ & _ & _ & _ & HD1 & _).
  assert (Hd2 : (@SPC_Constants.d2 docstring_runtime example
                   (@run_reads docstring_runtime example_reads empty_world)).1
                = docstring_d2) by (vm_compute; reflexivity).
  assert (Hd3 : (@SPC_Constants.d3 docstring_runtime example
                   (@run_reads docstring_runtime example_reads empty_world)).1
                = sqrt (2 * docstring_d2 - docstring_d2 * docstring_d2))
    by (vm_compute; reflexivity).
  rewrite Hd2 in HA2, HD1. rewrite Hd3 in HD1.
  split; [exact HA2 | exact HD1].
Defined.

(** With a quadrature that reports 3 for every integral, the value under
    the square root is 2 · 3 − 3² = −3; the read of d3 returns NaN. *)
Lemma d3_with_negative_radicand_raises_nothing :
  (@spec_d3_radicand loose_runtime (SPC_Constants.n example) <? 0) = true ∧
  (@SPC_Constants.getattr loose_runtime example "d3" empty_world).1 = Returns nan ∧
  ∀ e : exn, (@SPC_Constants.getattr loose_runtime example "d3" empty_world).1 ≠ Raises e.
Proof.
  split; [reflexivity|]. split; [vm_compute; reflexivity|].
  intros e H. vm_compute in H. discriminate H.
Qed.

(** C6, as the code has it.  When the value under the square root of d3 is
    negative, nothing is raised, at construction or later: construction
    returns the instance as for any other valid parameters, and the read
    of d3 returns NaN, the value of [np.sqrt] on a negative number. *)
Theorem d3_with_negative_radicand_is_nan `{rt : Runtime} (o : positive) (n z : float) (w : World) :
  sound w →
  (spec_d3_radicand n <? 0) = true →
  (n <? 2) = false →
  (z <=? 0) = false →
  ∃ self w',
    SPC_Constants.__init__ o n z w = (Returns self, w) ∧
    SPC_Constants.getattr self "d3" w = (Returns nan, w').
Proof.
  intros Hs Hneg Hn Hz.
  exists {| SPC_Constants.oid := o; SPC_Constants._sample_size := n;
            SPC_Constants._sigma_limit := z |}.
  unfold SPC_Constants.__init__. rewrite Hn, Hz.
  unfold SPC_Constants.getattr.
  change (SPC_Constants.lookup_property "d3" SPC_Constants.properties)
    with (Some SPC_Constants.d3).
  destruct (d3_run {| SPC_Constants.oid := o; SPC_Constants._sample_size := n;
                      SPC_Constants._sigma_limit := z |} w Hs) as (w' & -> & _).
  exists w'. split; [reflexivity|].
  unfold spec_d3. simpl. by rewrite (sqrt_negative _ Hneg).
Qed.

Lemma d3_with_negative_radicand_is_nan_witness :
  @sound loose_runtime empty_world ∧
  (@spec_d3_radicand loose_runtime 2 <? 0) = true ∧
  (2 <? 2) = false ∧ (3 <=? 0) = false ∧
  ∃ self w',
    @SPC_Constants.__init__ loose_runtime 1 2 3 empty_world = (Returns self, empty_world) ∧
    @SPC_Constants.getattr loose_runtime self "d3" empty_world = (Returns nan, w').
Proof.
  split; [apply sound_empty_world|]. split; [reflexivity|].
  split; [reflexivity|]. split; [reflexivity|].
  apply (@d3_with_negative_radicand_is_nan loose_runtime 1%positive 2 3 empty_world).
  - apply sound_empty_world.
  - reflexivity.
  - reflexivity.
  - reflexivity.
Defined.

(** C7.  Construction raises [ValueError] when n < 2 or z <= 0, so in
    particular for n = 1, n = 0, a negative n, z = 0 and a negative z; it
    then returns no instance and leaves the world as it was.  Otherwise it
    returns an instance that holds n and z, leaves the world as it was,
    and the properties n and z of the instance refuse assignment. *)
Theorem init_validates_its_parameters `{rt : Runtime} (o : positive) (n z : float) (w : World) :
  ((n <? 2) = true ∨ (z <=? 0) = true →
     ∃ msg, SPC_Constants.__init__ o n z w = (Raises (ValueError msg), w)) ∧
  (n = 1 ∨ n = 0 ∨ (n <? 0) = true ∨ z = 0 ∨ (z <? 0) = true →
     (n <? 2) = true ∨ (z <=? 0) = true) ∧
  ((n <? 2) = false → (z <=? 0) = false →
     ∃ self,
       SPC_Constants.__init__ o n z w = (Returns self, w) ∧
       SPC_Constants.getattr self "n" w = (Returns n, w) ∧
       SPC_Constants.getattr self "z" w = (Returns z, w) ∧
       ∀ v, (∃ msg, SPC_Constants.setattr self "n" v = Raises (AttributeError msg)) ∧
            (∃ msg, SPC_Constants.setattr self "z" v = Raises (AttributeError msg))).
Proof.
  split; [|split].
  - unfold SPC_Constants.__init__. intros [Hn|Hz].
    + rewrite Hn. eauto.
    + destruct (n <? 2); rewrite ?Hz; eauto.
  - intros [->|[->|[Hn|[->|Hz]]]].
    + by left.
    + by left.
    + left. by apply negative_below_two.
    + by right.
    + right. by apply negative_below_zero.
  - intros Hn Hz. unfold SPC_Constants.__init__. rewrite Hn, Hz.
    eexists. split; [reflexivity|].
    split; [reflexivity|]. split; [reflexivity|].
    intros v. split; eexists; reflexivity.
Qed.

Lemma init_validates_its_parameters_witness :
  (∃ msg, @SPC_Constants.__init__ docstring_runtime 1 1 3 empty_world
          = (Raises (ValueError msg), empty_world)) ∧
  (∃ msg, @SPC_Constants.__init__ docstring_runtime 1 2 0 empty_world
          = (Raises (ValueError msg), empty_world)) ∧
  ((-1 <? 2) = true ∨ (3 <=? 0) = true) ∧
  (∃ self, @SPC_Constants.__init__ docstring_runtime 1 2 3 empty_world
           = (Returns self, empty_world) ∧
           @SPC_Constants.getattr docstring_runtime self "n" empty_world
           = (Returns 2, empty_world)).
Proof.
  split; [|split; [|split]].
  - apply (@init_validates_its_parameters docstring_runtime 1%positive 1 3 empty_world).
    left. reflexivity.
  - apply (@init_validates_its_parameters docstring_runtime 1%positive 2 0 empty_world).
    right. reflexivity.
  - apply (@init_validates_its_parameters docstring_runtime 1%positive (-1) 3 empty_world).
    right. right. left. reflexivity.
  - destruct (@init_validates_its_parameters docstring_runtime 1%positive 2 3 empty_world)
      as (_ & _ & Hok).
    destruct (Hok eq_refl eq_refl) as (self & Hinit & Hn & _).
    exists self. split; assumption.
Defined.

(** C8.  Two instances with the same n return the same d2 and the same d3,
    whatever their z: read in the same world they return the same value
    and leave the same world; and read one after the other, with any reads
    in between, the second instance returns what the first returned. *)
Theorem d2_and_d3_do_not_depend_on_z `{rt : Runtime} (s1 s2 : SPC_Constants.t) :
  SPC_Constants.n s1 = SPC_Constants.n s2 →
  (∀ w, SPC_Constants.d2 s1 w = SPC_Constants.d2 s2 w ∧
        SPC_Constants.d3 s1 w = SPC_Constants.d3 s2 w) ∧
  (text_roundtrip → ∀ w between,
     (SPC_Constants.d2 s2 (run_reads between (SPC_Constants.d2 s1 w).2)).1
       = (SPC_Constants.d2 s1 w).1 ∧
     (SPC_Constants.d3 s2 (run_reads between (SPC_Constants.d3 s1 w).2)).1
       = (SPC_Constants.d3 s1 w).1).
Proof.
  intros Hn. split.
  - intros w. split; [by apply d2_reads_only_n | by apply d3_reads_only_n].
  - intros Hrt w between. split.
    + rewrite <- (d2_reads_only_n s1 s2) by exact Hn.
      destruct (SPC_Constants.d2 s1 w) as [v w1] eqn:Hrun. simpl.
      unfold SPC_Constants.d2 in Hrun |- *.
      by rewrite (persistent_cache_stable _ _ Hrt _ _ _ _ _ Hrun
                    (run_reads_extends between w1)).
    + rewrite <- (d3_reads_only_n s1 s2) by exact Hn.
      destruct (SPC_Constants.d3 s1 w) as [v w1] eqn:Hrun. simpl.
      unfold SPC_Constants.d3 in Hrun |- *.
      by rewrite (persistent_cache_stable _ _ Hrt _ _ _ _ _ Hrun
                    (run_reads_extends between w1)).
Qed.

Lemma d2_and_d3_do_not_depend_on_z_witness :
  SPC_Constants.n example = SPC_Constants.n example' ∧
  @text_roundtrip docstring_runtime ∧
  @SPC_Constants.d3 docstring_runtime example empty_world
    = @SPC_Constants.d3 docstring_runtime example' empty_world ∧
  (@SPC_Constants.d2 docstring_runtime example'
     (@SPC_Constants.d2 docstring_runtime example empty_world).2).1
    = (@SPC_Constants.d2 docstring_runtime example empty_world).1.
Proof.
  split; [reflexivity|]. split; [apply Oracle.roundtrip|].
  destruct (@d2_and_d3_do_not_depend_on_z docstring_runtime example example' eq_refl)
    as [Hsame Hseq].
  split.
  - apply Hsame.
  - apply (Hseq (Oracle.roundtrip _) empty_world []).
Defined.



(** [SPC_Constants(nan, 0)] raises: NaN passes the guard of n, and z = 0
    then fails its own. *)
Lemma init_of_nan_still_checks_z :
  @SPC_Constants.__init__ docstring_runtime 1 nan 0 empty_world
  = (Raises (ValueError ("z argument must be positive, not "
                         +:+ @format_float docstring_runtime 0)), empty_world) ∧
  ∀ self w, @SPC_Constants.__init__ docstring_runtime 1 nan 0 empty_world ≠ (Returns self, w).
Proof. split; [reflexivity|]. intros self w H. discriminate H. Qed.

(** C10, as the code has it.  A NaN passes the guard of its own parameter
    and leaves the other guard in force: with n NaN, construction succeeds
    when z is not <= 0 (as the default z is not) and raises the error of z
    when z <= 0; with n >= 2 and z NaN it succeeds; yet NaN is neither
    >= 2 nor > 0. *)
Theorem init_accepts_nan `{rt : Runtime} (o : positive) (w : World) :
  (∀ z, (z <=? 0) = false →
     SPC_Constants.__init__ o nan z w =
     (Returns {| SPC_Constants.oid := o; SPC_Constants._sample_size := nan;
                 SPC_Constants._sigma_limit := z |}, w)) ∧
  (∀ z, (z <=? 0) = true →
     SPC_Constants.__init__ o nan z w =
     (Raises (ValueError ("z argument must be positive, not " +:+ format_float z)), w)) ∧
  (∀ n, (2 <=? n) = true →
     SPC_Constants.__init__ o n nan w =
     (Returns {| SPC_Constants.oid := o; SPC_Constants._sample_size := n;
                 SPC_Constants._sigma_limit := nan |}, w)) ∧
  (SPC_Constants.z_default <=? 0) = false ∧
  (2 <=? nan) = false ∧ (0 <? nan) = false.
Proof.
  split; [|split; [|split; [|repeat split]]].
  - intros z Hz. unfold SPC_Constants.__init__.
    change (nan <? 2) with false. by rewrite Hz.
  - intros z Hz. unfold SPC_Constants.__init__.
    change (nan <? 2) with false. by rewrite Hz.
  - intros n Hn. unfold SPC_Constants.__init__.
    rewrite (two_le_not_below n Hn). reflexivity.
Qed.

Lemma init_accepts_nan_witness :
  (3 <=? 0) = false ∧ (0 <=? 0) = true ∧ (2 <=? 2) = true ∧
  (@SPC_Constants.__init__ docstring_runtime 1 nan 3 empty_world).1
    = Returns {| SPC_Constants.oid := 1; SPC_Constants._sample_size := nan;
                 SPC_Constants._sigma_limit := 3 |} ∧
  (@SPC_Constants.__init__ docstring_runtime 1 nan 0 empty_world).1
    = Raises (ValueError ("z argument must be positive, not "
                          +:+ @format_float docstring_runtime 0)) ∧
  (@SPC_Constants.__init__ docstring_runtime 1 2 nan empty_world).1
    = Returns {| SPC_Constants.oid := 1; SPC_Constants._sample_size := 2;
                 SPC_Constants._sigma_limit := nan |}.
Proof.
  split; [reflexivity|]. split; [reflexivity|]. split; [reflexivity|].
  destruct (@init_accepts_nan docstring_runtime 1%positive empty_world)
    as (Hn & Hn0 & Hz & _).
  split; [|split].
  - rewrite (Hn 3 eq_refl). reflexivity.
  - rewrite (Hn0 0 eq_refl). reflexivity.
  - rewrite (Hz 2 eq_refl). reflexivity.
Defined.

(** * Beyond the claims: more of the program *)

(** ** The constructor, exactly *)

(** [__init__] returns an instance exactly when n is at least 2 or NaN and
    z is above 0 or NaN.  It looks at n first: an n below 2 is reported
    with the message about n whatever z is, and z is reported only when n
    has passed. *)
Theorem init_returns_exactly_on `{rt : Runtime} (o : positive) (n z : float) (w : World) :
  ((∃ self, SPC_Constants.__init__ o n z w = (Returns self, w)) ↔
     ((2 <=? n) = true ∨ n = nan) ∧ ((0 <? z) = true ∨ z = nan)) ∧
  ((n <? 2) = true →
     SPC_Constants.__init__ o n z w =
     (Raises (ValueError
        ("Sample size n must be greater than or equal to 2, not " +:+ format_float n)), w)) ∧
  ((n <? 2) = false → (z <=? 0) = true →
     SPC_Constants.__init__ o n z w =
     (Raises (ValueError ("z argument must be positive, not " +:+ format_float z)), w)).
Proof.
  unfold SPC_Constants.__init__. split; [|split].
  - rewrite <- not_below_two, <- not_at_most_zero.
    destruct (n <? 2); [|destruct (z <=? 0)].
    + split; [intros [self [=]] | intros [[=] _]].
    + split; [intros [self [=]] | intros [_ [=]]].
    + split; [done | intros _; eauto].
  - by intros ->.
  - by intros -> ->.
Qed.

Lemma init_returns_exactly_on_witness :
  (∃ self, @SPC_Constants.__init__ docstring_runtime 1 infinity nan empty_world
           = (Returns self, empty_world)) ∧
  @SPC_Constants.__init__ docstring_runtime 1 1 (-1) empty_world =
  (Raises (ValueError
     ("Sample size n must be greater than or equal to 2, not "
      +:+ @format_float docstring_runtime 1)), empty_world).
Proof.
  destruct (@init_returns_exactly_on docstring_runtime 1%positive infinity nan empty_world)
    as ([_ Hback] & _ & _).
  destruct (@init_returns_exactly_on docstring_runtime 1%positive 1 (-1) empty_world)
    as (_ & Hn & _).
  split.
  - apply Hback. split; [left; reflexivity | right; reflexivity].
  - apply Hn. reflexivity.
Defined.

(** ** The lower limits *)

(** On sound caches, at every read of an instance from its construction
    on, B3, B5, D1 and D3 are either exactly 0 or above 0: [max(0, ·)]
    lets neither a negative value nor a NaN through. *)
Theorem lower_limits_are_zero_or_positive `{rt : Runtime}
    (self : SPC_Constants.t) (w0 : World) (reads : list (SPC_Constants.t * string)) :
  text_roundtrip →
  sound w0 →
  (∀ name, memo w0 !! (name, SPC_Constants.oid self) = None) →
  Forall (λ r : SPC_Constants.t * string,
            SPC_Constants.oid r.1 = SPC_Constants.oid self → r.1 = self) reads →
  Forall (λ lower : SPC_Constants.t → M float,
            (lower self (run_reads reads w0)).1 = 0
            ∨ (0 <? (lower self (run_reads reads w0)).1) = true)
    [SPC_Constants.B3; SPC_Constants.B5; SPC_Constants.D1; SPC_Constants.D3].
Proof.
  intros Hrt Hs0 Hfresh Hids.
  set (w := run_reads reads w0).
  assert (Hs : sound w) by by apply run_reads_sound.
  assert (Hm : memo_ok self w).
  { apply run_reads_memo_ok; [done..|]. by apply fresh_memo_ok. }
  pose proof (table_read self w Hrt Hs Hm) as Htable.
  unfold table in Htable. cbv zeta in Htable. rewrite !Forall_cons in Htable.
  cbn [fst snd] in Htable.
  destruct Htable as (_ & _ & _ & _ & HB3 & _ & HB5 & _ & HD1 & _ & HD3 & _).
  repeat apply Forall_cons_2; try apply Forall_nil_2.
  - replace (SPC_Constants.B3 self w).1 with
      (max_ 0 (1 - SPC_Constants.z self / spec_c4 (SPC_Constants.n self)
                   * sqrt (1 - float_pow (spec_c4 (SPC_Constants.n self)) 2)))
      by (symmetry; table_value HB3).
    apply max_0_cases.
  - replace (SPC_Constants.B5 self w).1 with
      (max_ 0 (spec_c4 (SPC_Constants.n self)
               - SPC_Constants.z self
                 * sqrt (1 - float_pow (spec_c4 (SPC_Constants.n self)) 2)))
      by (symmetry; table_value HB5).
    apply max_0_cases.
  - replace (SPC_Constants.D1 self w).1 with
      (max_ 0 (spec_d2 (SPC_Constants.n self)
               - SPC_Constants.z self * spec_d3 (SPC_Constants.n self)))
      by (symmetry; table_value HD1).
    apply max_0_cases.
  - replace (SPC_Constants.D3 self w).1 with
      (max_ 0 (1 - SPC_Constants.z self * spec_d3 (SPC_Constants.n self)
                   / spec_d2 (SPC_Constants.n self)))
      by (symmetry; table_value HD3).
    apply max_0_cases.
Qed.

Lemma lower_limits_are_zero_or_positive_witness :
  @text_roundtrip loose_runtime ∧
  @sound loose_runtime empty_world ∧
  (∀ name : string, memo empty_world !! (name, SPC_Constants.oid example) = None) ∧
  Forall (λ r : SPC_Constants.t * string,
            SPC_Constants.oid r.1 = SPC_Constants.oid example → r.1 = example)
    example_reads ∧
  ((@SPC_Constants.D1 loose_runtime example
      (@run_reads loose_runtime example_reads empty_world)).1 = 0
   ∨ (0 <? (@SPC_Constants.D1 loose_runtime example
              (@run_reads loose_runtime example_reads empty_world)).1) = true).
Proof.
  assert (Hids : Forall (λ r : SPC_Constants.t * string,
            SPC_Constants.oid r.1 = SPC_Constants.oid example → r.1 = example)
            example_reads).
  { repeat constructor; cbn [fst]; intros H; try reflexivity; discriminate H. }
  split; [apply Oracle.roundtrip|]. split; [apply sound_empty_world|].
  split; [intros name; reflexivity|]. split; [exact Hids|].
  pose proof (@lower_limits_are_zero_or_positive loose_runtime example empty_world
                example_reads (Oracle.roundtrip _) sound_empty_world
                (λ name, eq_refl) Hids) as H.
  rewrite !Forall_cons in H. destruct H as (_ & _ & HD1 & _). exact HD1.
Defined.

(** When the value under the square root of d3 is negative, the NaN that d3
    returns reaches the limits of the R chart: the upper limits D2 and D4
    are NaN, and the lower limits D1 and D3 are 0, as if clamped. *)
Theorem nan_d3_reaches_the_R_chart_limits `{rt : Runtime}
    (self : SPC_Constants.t) (w : World) :
  text_roundtrip →
  sound w →
  (∀ name, memo w !! (name, SPC_Constants.oid self) = None) →
  (spec_d3_radicand (SPC_Constants.n self) <? 0) = true →
  (SPC_Constants.D1 self w).1 = 0 ∧
  (SPC_Constants.D2 self w).1 = nan ∧
  (SPC_Constants.D3 self w).1 = 0 ∧
  (SPC_Constants.D4 self w).1 = nan.
Proof.
  intros Hrt Hs Hfresh Hneg.
  assert (Hnan : spec_d3 (SPC_Constants.n self) = nan).
  { unfold spec_d3. by apply sqrt_negative. }
  unfold SPC_Constants.D1, SPC_Constants.D2, SPC_Constants.D3, SPC_Constants.D4.
  repeat split; first_read Hfresh; repeat read_on_sound Hrt; cbn [fst]; rewrite Hnan.
  - by rewrite mul_nan_r, sub_nan_r.
  - by rewrite mul_nan_r, add_nan_r.
  - by rewrite mul_nan_r, div_nan_l, sub_nan_r.
  - by rewrite mul_nan_r, div_nan_l, add_nan_r.
Qed.

Lemma nan_d3_reaches_the_R_chart_limits_witness :
  @text_roundtrip loose_runtime ∧ @sound loose_runtime empty_world ∧
  (∀ name : string, memo empty_world !! (name, SPC_Constants.oid example) = None) ∧
  (@spec_d3_radicand loose_runtime (SPC_Constants.n example) <? 0) = true ∧
  (@SPC_Constants.D1 loose_runtime example empty_world).1 = 0 ∧
  (@SPC_Constants.D2 loose_runtime example empty_world).1 = nan.
Proof.
  split; [apply Oracle.roundtrip|]. split; [apply sound_empty_world|].
  split; [intros name; reflexivity|]. split; [reflexivity|].
  destruct (@nan_d3_reaches_the_R_chart_limits loose_runtime example empty_world
              (Oracle.roundtrip _) sound_empty_world (λ name, eq_refl) eq_refl)
    as (H1 & H2 & _).
  split; assumption.
Defined.

(** ** What a read leaves alone *)

(** Which cache files a constant can write.  c4 and the constants of the
    s chart (c5, A3, B3 to B6, E3) leave every file but c4's as it was, so
    they never run the integrals of d2 and d3; d2, A2 and E2 leave every
    file but d2's; d3 and D1 to D4 leave every file but those of d2 and
    d3; A writes no file at all. *)
Theorem constants_write_only_their_own_files `{rt : Runtime}
    (self : SPC_Constants.t) (w : World) (p : string) :
  (p ≠ ".cache.c4.dbm" →
     Forall (λ g : SPC_Constants.t → M float, db_of p (g self w).2 = db_of p w)
       [SPC_Constants.c4; SPC_Constants.c5; SPC_Constants.A3; SPC_Constants.B3;
        SPC_Constants.B4; SPC_Constants.B5; SPC_Constants.B6; SPC_Constants.E3]) ∧
  (p ≠ ".cache.d2.dbm" →
     Forall (λ g : SPC_Constants.t → M float, db_of p (g self w).2 = db_of p w)
       [SPC_Constants.d2; SPC_Constants.A2; SPC_Constants.E2]) ∧
  (p ≠ ".cache.d2.dbm" → p ≠ ".cache.d3.dbm" →
     Forall (λ g : SPC_Constants.t → M float, db_of p (g self w).2 = db_of p w)
       [SPC_Constants.d3; SPC_Constants.D1; SPC_Constants.D2;
        SPC_Constants.D3; SPC_Constants.D4]) ∧
  db_of p (SPC_Constants.A self w).2 = db_of p w.
Proof.
  split; [|split; [|split]].
  - intros Hp. repeat apply Forall_cons_2; try apply Forall_nil_2.
    1: by apply c4_keeps_db.
    all: apply (cache_keeps_db p);
      chain_steps (keeps_db p) (c4_keeps_db p) (c4_keeps_db p)
        (λ s, c4_keeps_db p s Hp).
  - intros Hp. repeat apply Forall_cons_2; try apply Forall_nil_2.
    1: by apply d2_keeps_db.
    all: apply (cache_keeps_db p);
      chain_steps (keeps_db p) (λ s, d2_keeps_db p s Hp) (d2_keeps_db p) (d2_keeps_db p).
  - intros Hp2 Hp3. repeat apply Forall_cons_2; try apply Forall_nil_2.
    1: by apply d3_keeps_db.
    all: apply (cache_keeps_db p);
      chain_steps (keeps_db p) (λ s, d2_keeps_db p s Hp2)
        (λ s, d3_keeps_db p s Hp2 Hp3) (c4_keeps_db p).
  - apply (cache_keeps_db p). chain_steps (keeps_db p) (d2_keeps_db p) (d2_keeps_db p)
      (d2_keeps_db p).
Qed.

Lemma constants_write_only_their_own_files_witness :
  ".cache.d3.dbm" ≠ ".cache.c4.dbm" ∧
  db_of ".cache.d3.dbm" (@SPC_Constants.B3 docstring_runtime example empty_world).2
    = db_of ".cache.d3.dbm" empty_world.
Proof.
  split; [discriminate|].
  destruct (@constants_write_only_their_own_files docstring_runtime example empty_world
              ".cache.d3.dbm") as (Hc4 & _).
  assert (Hp : ".cache.d3.dbm" ≠ ".cache.c4.dbm") by discriminate.
  specialize (Hc4 Hp). rewrite !Forall_cons in Hc4.
  destruct Hc4 as (_ & _ & _ & HB3 & _). exact HB3.
Defined.

(** ** The memo tables *)

(** Reading the field [name] of an instance changes the memo tables at most
    at the entry of that field and that instance: nothing is memoised for
    another field, nor for another instance. *)
Theorem a_read_memoises_only_its_own_field `{rt : Runtime}
    (self : SPC_Constants.t) (name : string) (w : World) (key : string * positive) :
  key ≠ (name, SPC_Constants.oid self) →
  memo (SPC_Constants.getattr self name w).2 !! key = memo w !! key.
Proof.
  intros Hkey. unfold SPC_Constants.getattr.
  destruct (SPC_Constants.lookup_property _ _) as [fget|] eqn:Hp.
  - apply lookup_property_named in Hp.
    pose proof properties_memoise_their_own_name as Hall.
    rewrite Forall_forall in Hall.
    specialize (Hall _ Hp self key Hkey w). cbn [snd] in Hall.
    destruct (fget self w) as [v w']. exact Hall.
  - repeat case_match; reflexivity.
Qed.

Lemma a_read_memoises_only_its_own_field_witness :
  ("A2", SPC_Constants.oid example') ≠ ("A2", SPC_Constants.oid example) ∧
  memo (@SPC_Constants.getattr docstring_runtime example "A2" empty_world).2
    !! ("A2", SPC_Constants.oid example') = None.
Proof.
  split; [discriminate|].
  apply (@a_read_memoises_only_its_own_field docstring_runtime example "A2" empty_world
           ("A2", SPC_Constants.oid example')).
  discriminate.
Defined.

(** ** Entries are never lost *)

(** No sequence of reads, on any instances, removes or changes an entry of
    a cache file or a memoised value: what is there stays there. *)
Theorem reads_never_overwrite `{rt : Runtime}
    (reads : list (SPC_Constants.t * string)) (w : World) :
  (∀ p k b, db_of p w !! k = Some b → db_of p (run_reads reads w) !! k = Some b) ∧
  (∀ key v, memo w !! key = Some v → memo (run_reads reads w) !! key = Some v).
Proof.
  pose proof (run_reads_extends reads w) as Hext. split.
  - intros p k b. by apply extends_db_lookup.
  - intros key v. by apply extends_memo_lookup.
Qed.

(** ** Every field is read-only *)

(** Assigning to any of the nineteen fields raises [AttributeError]. *)
Theorem every_field_refuses_assignment `{rt : Runtime}
    (self : SPC_Constants.t) (name : string) (value : float) :
  name ∈ fields →
  ∃ msg, SPC_Constants.setattr self name value = Raises (AttributeError msg).
Proof.
  intros Hin. unfold fields in Hin.
  repeat (apply elem_of_cons in Hin as [->|Hin]);
    try (by apply elem_of_nil in Hin);
    unfold SPC_Constants.setattr;
    (destruct (SPC_Constants.lookup_property _ _) as [fget|] eqn:Hp;
     [eauto
     |cbv beta iota delta [SPC_Constants.lookup_property SPC_Constants.properties
                           String.eqb Ascii.eqb Bool.eqb] in Hp;
      discriminate Hp]).
Qed.

Lemma every_field_refuses_assignment_witness :
  "E3" ∈ fields ∧
  ∃ msg, @SPC_Constants.setattr docstring_runtime example "E3" 42 = Raises (AttributeError msg).
Proof.
  assert (Hin : "E3" ∈ fields) by (unfold fields; repeat constructor).
  split; [exact Hin|].
  apply (@every_field_refuses_assignment docstring_runtime example "E3" 42 Hin).
Defined.

(** ** The cache outlives the integrator *)

(** The key of an entry is the text of n and nothing else.  So a value that
    one runtime has cached is what any other runtime with the same text
    format returns for that n, whatever its own [quad], [norm.cdf] or
    [gammaln] would compute: a hit consults none of them, and leaves the
    world as it is. *)
Theorem cached_values_outlive_the_runtime (rt1 rt2 : Runtime)
    (s1 s2 : SPC_Constants.t) (w w2 : World) :
  (∀ x, @format_float rt1 x = @format_float rt2 x) →
  (∀ b, @parse_float rt1 b = @parse_float rt2 b) →
  @text_roundtrip rt1 →
  SPC_Constants.n s1 = SPC_Constants.n s2 →
  Forall (λ g : (SPC_Constants.t → M float) * (SPC_Constants.t → M float),
            extends (g.1 s1 w).2 w2 → g.2 s2 w2 = ((g.1 s1 w).1, w2))
    [ (@SPC_Constants.d2 rt1, @SPC_Constants.d2 rt2);
      (@SPC_Constants.d3 rt1, @SPC_Constants.d3 rt2);
      (@SPC_Constants.c4 rt1, @SPC_Constants.c4 rt2) ].
Proof.
  intros Hformat Hparse Hrt Hn.
  assert (Hany : ∀ db_path func1 func2,
    extends (@SPC_Constants.persistent_cache rt1 db_path func1 s1 w).2 w2 →
    @SPC_Constants.persistent_cache rt2 db_path func2 s2 w2
    = ((@SPC_Constants.persistent_cache rt1 db_path func1 s1 w).1, w2)).
  { intros db_path func1 func2.
    rewrite (@persistent_cache_run rt1), (@persistent_cache_run rt2).
    unfold SPC_Constants._encode, SPC_Constants._decode.
    rewrite <- Hn, <- Hformat.
    destruct (db_of db_path w !! @format_float rt1 (SPC_Constants.n s1)) as [b|] eqn:Hk.
    - intros Hext. cbn [fst snd] in *.
      rewrite (extends_db_lookup _ _ _ _ _ Hext Hk). by rewrite Hparse.
    - destruct (func1 s1 w) as [v w']. intros Hext. cbn [fst snd] in *.
      erewrite extends_db_lookup; [|exact Hext|].
      + by rewrite <- Hparse, Hrt.
      + rewrite db_of_dbm_put, decide_True by done. apply lookup_insert_eq. }
  repeat apply Forall_cons_2; try apply Forall_nil_2; cbn [fst snd]; apply Hany.
Qed.

(** A d3 cached as NaN by an integrator that was too loose is what a
    better integrator returns afterwards. *)
Lemma cached_values_outlive_the_runtime_witness :
  @text_roundtrip loose_runtime ∧
  SPC_Constants.n example = SPC_Constants.n example' ∧
  @SPC_Constants.d3 docstring_runtime example'
    (@SPC_Constants.d3 loose_runtime example empty_world).2
  = (nan, (@SPC_Constants.d3 loose_runtime example empty_world).2).
Proof.
  split; [apply Oracle.roundtrip|]. split; [reflexivity|].
  pose proof (cached_values_outlive_the_runtime loose_runtime docstring_runtime
                example example' empty_world
                (@SPC_Constants.d3 loose_runtime example empty_world).2
                (λ x, eq_refl) (λ b, eq_refl) (Oracle.roundtrip _) eq_refl) as H.
  rewrite !Forall_cons in H. destruct H as (_ & Hd3 & _).
  cbn [fst snd] in Hd3. apply Hd3. reflexivity.
Defined.


(** ** Sample sizes do not collide *)

(** [keeps_key k]: every file still holds, under the key [k], what it held. *)
Definition keeps_key (k : string) (w w' : World) : Prop :=
  ∀ p, db_of p w' !! k = db_of p w !! k.

#[export] Instance keeps_key_preorder k : PreOrder (keeps_key k).
Proof.
  split; [intros w p; reflexivity|].
  intros w1 w2 w3 H12 H23 p. by rewrite H23.
Qed.

Section Keys.
Context `{rt : Runtime}.

Lemma persistent_cache_keeps_key k db_path func (self : SPC_Constants.t) :
  format_float (SPC_Constants.n self) ≠ k →
  steps (keeps_key k) (func self) →
  steps (keeps_key k) (SPC_Constants.persistent_cache db_path func self).
Proof.
  intros Hk Hf w. rewrite persistent_cache_run.
  destruct (db_of db_path w !! _); [reflexivity|].
  specialize (Hf w). destruct (func self w) as [v w']. simpl in *.
  intros p. rewrite db_of_dbm_put. case_decide as Hp; [subst p|apply Hf].
  unfold SPC_Constants._encode. rewrite lookup_insert_ne by done. apply Hf.
Qed.

Lemma d2_keeps_key k self :
  format_float (SPC_Constants.n self) ≠ k → steps (keeps_key k) (SPC_Constants.d2 self).
Proof.
  intros Hk. apply persistent_cache_keeps_key; [exact Hk|]. intros w. cbv beta zeta.
  destruct (quad _ neg_infinity infinity). reflexivity.
Qed.

Lemma c4_keeps_key k self :
  format_float (SPC_Constants.n self) ≠ k → steps (keeps_key k) (SPC_Constants.c4 self).
Proof.
  intros Hk. apply persistent_cache_keeps_key; [exact Hk|]. intros w. reflexivity.
Qed.

Lemma d3_keeps_key k self :
  format_float (SPC_Constants.n self) ≠ k → steps (keeps_key k) (SPC_Constants.d3 self).
Proof.
  intros Hk. apply persistent_cache_keeps_key; [exact Hk|]. cbv beta zeta.
  destruct (quad _ neg_infinity infinity).
  apply steps_bind; [apply _ | by apply d2_keeps_key | intros a; apply steps_ret, _].
Qed.

(** What d2, c4 and d3 return depends on the world only through the entries
    under the key of their own n. *)
Lemma d2_reads_only_its_key self w w' :
  keeps_key (format_float (SPC_Constants.n self)) w w' →
  (SPC_Constants.d2 self w').1 = (SPC_Constants.d2 self w).1.
Proof.
  intros Hkey. unfold SPC_Constants.d2. rewrite !persistent_cache_run.
  unfold SPC_Constants._encode. rewrite Hkey.
  destruct (db_of _ w !! _); [reflexivity|]. cbv beta zeta.
  destruct (quad _ neg_infinity infinity). reflexivity.
Qed.

Lemma c4_reads_only_its_key self w w' :
  keeps_key (format_float (SPC_Constants.n self)) w w' →
  (SPC_Constants.c4 self w').1 = (SPC_Constants.c4 self w).1.
Proof.
  intros Hkey. unfold SPC_Constants.c4. rewrite !persistent_cache_run.
  unfold SPC_Constants._encode. rewrite Hkey.
  destruct (db_of _ w !! _); reflexivity.
Qed.

Lemma d3_reads_only_its_key self w w' :
  keeps_key (format_float (SPC_Constants.n self)) w w' →
  (SPC_Constants.d3 self w').1 = (SPC_Constants.d3 self w).1.
Proof.
  intros Hkey. pose proof (d2_reads_only_its_key self w w' Hkey) as Hd2.
  unfold SPC_Constants.d3. rewrite !persistent_cache_run.
  unfold SPC_Constants._encode. rewrite Hkey.
  destruct (db_of _ w !! _); [reflexivity|]. cbv beta zeta.
  destruct (quad _ neg_infinity infinity).
  unfold mbind, M_bind.
  destruct (SPC_Constants.d2 self w') as [a' w1'].
  destruct (SPC_Constants.d2 self w) as [a w1].
  simpl in *. by rewrite Hd2.
Qed.

End Keys.

(** Reading d2, d3 or c4 for one sample size never changes what d2, d3 or
    c4 return for another: the keys of two different values of n are
    different texts. *)
Theorem sample_sizes_do_not_collide `{rt : Runtime} (s1 s2 : SPC_Constants.t) (w : World) :
  text_roundtrip →
  SPC_Constants.n s1 ≠ SPC_Constants.n s2 →
  Forall (λ g : SPC_Constants.t → M float,
            (SPC_Constants.d2 s2 (g s1 w).2).1 = (SPC_Constants.d2 s2 w).1 ∧
            (SPC_Constants.d3 s2 (g s1 w).2).1 = (SPC_Constants.d3 s2 w).1 ∧
            (SPC_Constants.c4 s2 (g s1 w).2).1 = (SPC_Constants.c4 s2 w).1)
    [SPC_Constants.d2; SPC_Constants.d3; SPC_Constants.c4].
Proof.
  intros Hrt Hn.
  assert (Hk : format_float (SPC_Constants.n s1) ≠ format_float (SPC_Constants.n s2)).
  { intros Heq. apply Hn. apply (f_equal parse_float) in Heq. by rewrite !Hrt in Heq. }
  assert (Hany : ∀ g : SPC_Constants.t → M float,
    steps (keeps_key (format_float (SPC_Constants.n s2))) (g s1) →
    (SPC_Constants.d2 s2 (g s1 w).2).1 = (SPC_Constants.d2 s2 w).1 ∧
    (SPC_Constants.d3 s2 (g s1 w).2).1 = (SPC_Constants.d3 s2 w).1 ∧
    (SPC_Constants.c4 s2 (g s1 w).2).1 = (SPC_Constants.c4 s2 w).1).
  { intros g Hg. specialize (Hg w). split; [|split].
    - by apply d2_reads_only_its_key.
    - by apply d3_reads_only_its_key.
    - by apply c4_reads_only_its_key. }
  repeat apply Forall_cons_2; try apply Forall_nil_2; apply Hany.
  - by apply d2_keeps_key.
  - by apply d3_keeps_key.
  - by apply c4_keeps_key.
Qed.

(** Another sample size. *)
Definition example_of_ten : SPC_Constants.t :=
  {| SPC_Constants.oid := 3; SPC_Constants._sample_size := 10%float;
     SPC_Constants._sigma_limit := 3%float |}.

Lemma sample_sizes_do_not_collide_witness :
  @text_roundtrip docstring_runtime ∧
  SPC_Constants.n example ≠ SPC_Constants.n example_of_ten ∧
  (@SPC_Constants.c4 docstring_runtime example_of_ten
     (@SPC_Constants.d3 docstring_runtime example empty_world).2).1
  = (@SPC_Constants.c4 docstring_runtime example_of_ten empty_world).1.
Proof.
  assert (Hn : SPC_Constants.n example ≠ SPC_Constants.n example_of_ten).
  { intros H. apply (f_equal Prim2SF) in H. vm_compute in H. discriminate H. }
  split; [apply Oracle.roundtrip|]. split; [exact Hn|].
  pose proof (@sample_sizes_do_not_collide docstring_runtime example example_of_ten
                empty_world (Oracle.roundtrip _) Hn) as H.
  rewrite !Forall_cons in H. destruct H as (_ & (_ & _ & Hc4) & _). exact Hc4.
Defined.

(** ** The text of an instance *)

Section Text.
Context `{rt : Runtime}.
(** [format_8f x] is the text of [f"{x:.8f}"]. *)
Variable format_8f : float → string.

Definition __repr__ (self : SPC_Constants.t) : string :=
  "SPC_Constants(" +:+ format_float (SPC_Constants.n self)
  +:+ ", z=" +:+ format_float (SPC_Constants.z self) +:+ ")".

(** The f-string reads the fields from left to right. *)
Definition __str__ (self : SPC_Constants.t) : M string :=
  A ← SPC_Constants.A self;
  A2 ← SPC_Constants.A2 self;
  A3 ← SPC_Constants.A3 self;
  c4 ← SPC_Constants.c4 self;
  B3 ← SPC_Constants.B3 self;
  B4 ← SPC_Constants.B4 self;
  B5 ← SPC_Constants.B5 self;
  B6 ← SPC_Constants.B6 self;
  d2 ← SPC_Constants.d2 self;
  d3 ← SPC_Constants.d3 self;
  D1 ← SPC_Constants.D1 self;
  D2 ← SPC_Constants.D2 self;
  D3 ← SPC_Constants.D3 self;
  D4 ← SPC_Constants.D4 self;
  mret ("n=" +:+ format_float (SPC_Constants.n self)
        +:+ " z=" +:+ format_float (SPC_Constants.z self)
        +:+ " A=" +:+ format_8f A +:+ " A2=" +:+ format_8f A2
        +:+ " A3=" +:+ format_8f A3 +:+ " c4=" +:+ format_8f c4
        +:+ " B3=" +:+ format_8f B3 +:+ " B4=" +:+ format_8f B4
        +:+ " B5=" +:+ format_8f B5 +:+ " B6=" +:+ format_8f B6
        +:+ " d2=" +:+ format_8f d2 +:+ " d3=" +:+ format_8f d3
        +:+ " D1=" +:+ format_8f D1 +:+ " D2=" +:+ format_8f D2
        +:+ " D3=" +:+ format_8f D3 +:+ " D4=" +:+ format_8f D4).

(** A computation is [settled] when, once it has returned a value, it
    returns that value in every later world and leaves that world alone. *)
Definition settled {A : Type} (m : M A) : Prop :=
  ∀ w v w1 w2, m w = (v, w1) → extends w1 w2 → m w2 = (v, w2).

Lemma settled_ret {A : Type} (a : A) : settled (mret a).
Proof. intros w v w1 w2 [= <- <-] _. reflexivity. Qed.

Lemma settled_bind {A B : Type} (m : M A) (k : A → M B) :
  settled m → (∀ a, settled (k a)) → (∀ a, extending (k a)) →
  settled (m ≫= k).
Proof.
  intros Hm Hk Hext w v w1 w2. unfold mbind, M_bind.
  destruct (m w) as [a wa] eqn:Hrun. intros Hka H12.
  assert (Ha2 : extends wa w2).
  { etransitivity; [|exact H12].
    pose proof (Hext a wa) as Hstep. by rewrite Hka in Hstep. }
  rewrite (Hm _ _ _ _ Hrun Ha2). exact (Hk a wa v w1 w2 Hka H12).
Qed.

(** The fields that [__str__] prints, in the order it reads them. *)
Definition printed : list (string * (SPC_Constants.t → M float)) :=
  [ ("A", SPC_Constants.A); ("A2", SPC_Constants.A2); ("A3", SPC_Constants.A3);
    ("c4", SPC_Constants.c4);
    ("B3", SPC_Constants.B3); ("B4", SPC_Constants.B4);
    ("B5", SPC_Constants.B5); ("B6", SPC_Constants.B6);
    ("d2", SPC_Constants.d2); ("d3", SPC_Constants.d3);
    ("D1", SPC_Constants.D1); ("D2", SPC_Constants.D2);
    ("D3", SPC_Constants.D3); ("D4", SPC_Constants.D4) ].

Lemma printed_ok : Forall (λ p, getter_ok p.2) printed.
Proof.
  apply Forall_forall. intros [k g] Hin.
  pose proof properties_ok as Hall. rewrite Forall_forall in Hall.
  apply Hall. unfold printed in Hin. unfold SPC_Constants.properties.
  repeat (apply elem_of_cons in Hin as [[= -> ->]|Hin]);
    try (by apply elem_of_nil in Hin); repeat constructor.
Qed.

End Text.

Section TextLemmas.
Context `{rt : Runtime}.

Lemma getter_ok_extending g : getter_ok g → ∀ self, extending (g self).
Proof. by intros (H & _ & _). Qed.

Lemma getter_ok_settled g : getter_ok g → text_roundtrip → ∀ self, settled (g self).
Proof. intros (_ & H & _) Hrt self w v w1 w2. by apply H. Qed.

(** [cached g self w]: reading [g] in [w] is a hit that leaves [w] alone. *)
Definition cached (g : SPC_Constants.t → M float) (self : SPC_Constants.t)
    (w : World) : Prop :=
  ∃ v, g self w = (v, w).

(** [after m P]: [P] holds of the world that [m] leaves. *)
Definition after {A : Type} (m : M A) (P : World → Prop) : Prop := ∀ w, P (m w).2.

Lemma after_here {A : Type} g self (k : float → M A) :
  settled (g self) → (∀ a, extending (k a)) →
  after (g self ≫= k) (cached g self).
Proof.
  intros Hg Hk w. unfold mbind, M_bind.
  destruct (g self w) as [a wa] eqn:Hrun.
  exists a. apply (Hg _ _ _ _ Hrun). apply Hk.
Qed.

Lemma after_skip {A B : Type} (m : M A) (k : A → M B) P :
  (∀ a, after (k a) P) → after (m ≫= k) P.
Proof. intros Hk w. unfold mbind, M_bind. destruct (m w) as [a wa]. apply Hk. Qed.

End TextLemmas.

(** The hypotheses [getter_ok g], one for each property of the class. *)
Ltac know_the_getters :=
  let H := fresh "Hall" in
  pose proof properties_ok as H;
  unfold SPC_Constants.properties in H;
  repeat (apply Forall_cons in H as [? H]);
  clear H; cbn [snd] in *.

Ltac getter_extends :=
  lazymatch goal with
  | |- steps _ (?g _) => apply (getter_ok_extending g); assumption
  end.

Ltac text_extends :=
  repeat lazymatch goal with
  | |- steps _ (mret _) => apply (steps_ret extends)
  | |- steps _ (_ ≫= _) => apply (steps_bind extends); [getter_extends | intros ?]
  end.

Ltac text_settled Hrt :=
  repeat lazymatch goal with
  | |- settled (mret _) => apply settled_ret
  | |- settled (?g _ ≫= _) =>
      apply settled_bind;
      [ apply (getter_ok_settled g); [assumption | exact Hrt]
      | intros ?
      | intros ?; text_extends ]
  end.

Ltac text_caches Hrt :=
  repeat lazymatch goal with
  | |- after (?g' _ ≫= _) (cached ?g _) =>
      tryif constr_eq g' g
      then (apply after_here;
            [ apply (getter_ok_settled g); [assumption | exact Hrt]
            | intros ?; text_extends ])
      else (apply after_skip; intros ?)
  end.

(** [str(self)] twice is the same text: once it has returned, it returns
    the same text after any reads, and leaves the world as it finds it. *)
Theorem str_is_idempotent `{rt : Runtime} (format_8f : float → string)
    (self : SPC_Constants.t) (w : World) :
  text_roundtrip →
  ∀ text w1 between,
    __str__ format_8f self w = (text, w1) →
    __str__ format_8f self (run_reads between w1) = (text, run_reads between w1).
Proof.
  intros Hrt text w1 between Hrun.
  assert (Hsettled : settled (__str__ format_8f self)).
  { know_the_getters. unfold __str__. text_settled Hrt. }
  apply (Hsettled _ _ _ _ Hrun), run_reads_extends.
Qed.

Lemma str_is_idempotent_witness :
  @text_roundtrip docstring_runtime ∧
  ∃ text w1,
    @__str__ docstring_runtime Oracle.format example empty_world = (text, w1) ∧
    @__str__ docstring_runtime Oracle.format example
      (@run_reads docstring_runtime [(example', "E2")] w1)
    = (text, @run_reads docstring_runtime [(example', "E2")] w1).
Proof.
  split; [apply Oracle.roundtrip|].
  destruct (@__str__ docstring_runtime Oracle.format example empty_world)
    as [text w1] eqn:Hrun.
  exists text, w1. split; [reflexivity|].
  apply (@str_is_idempotent docstring_runtime Oracle.format example empty_world
           (Oracle.roundtrip _) text w1 [(example', "E2")] Hrun).
Defined.

(** After [str(self)], every field it prints is cached: reading n, z or any
    of the fourteen printed constants returns at once and leaves the world
    as it is. *)
Theorem str_caches_what_it_prints `{rt : Runtime} (format_8f : float → string)
    (self : SPC_Constants.t) (w : World) (name : string) :
  text_roundtrip →
  name ∈ [ "n"; "z"; "A"; "A2"; "A3"; "c4"; "B3"; "B4"; "B5"; "B6";
           "d2"; "d3"; "D1"; "D2"; "D3"; "D4" ] →
  ∃ v, SPC_Constants.getattr self name (__str__ format_8f self w).2
       = (Returns v, (__str__ format_8f self w).2).
Proof.
  intros Hrt Hin.
  assert (Hall : Forall (λ p, after (__str__ format_8f self) (cached p.2 self)) printed).
  { know_the_getters. unfold printed, __str__.
    repeat apply Forall_cons_2; try apply Forall_nil_2; cbn [snd]; text_caches Hrt. }
  unfold printed in Hall. repeat (apply Forall_cons in Hall as [? Hall]). clear Hall.
  cbn [snd] in *.
  repeat (apply elem_of_cons in Hin as [->|Hin]); try (by apply elem_of_nil in Hin).
  1-2: eexists; reflexivity.
  all: unfold SPC_Constants.getattr;
    (destruct (SPC_Constants.lookup_property _ _) as [fget|] eqn:Hp;
     cbv beta iota delta [SPC_Constants.lookup_property SPC_Constants.properties
                          String.eqb Ascii.eqb Bool.eqb] in Hp;
     [injection Hp as <- | discriminate Hp]).
  all: match goal with
       | H : after ?m (cached ?g ?s) |- context [?g ?s (?m ?w0).2] =>
           let v := fresh "v" in let Hv := fresh "Hv" in
           destruct (H w0) as [v Hv]; rewrite Hv; eauto
       end.
Qed.

Lemma str_caches_what_it_prints_witness :
  @text_roundtrip docstring_runtime ∧
  ∃ v, @SPC_Constants.getattr docstring_runtime example "D3"
         (@__str__ docstring_runtime Oracle.format example empty_world).2
       = (Returns v, (@__str__ docstring_runtime Oracle.format example empty_world).2).
Proof.
  split; [apply Oracle.roundtrip|].
  apply (@str_caches_what_it_prints docstring_runtime Oracle.format example empty_world
           "D3" (Oracle.roundtrip _)).
  repeat constructor.
Defined.

(** [str(self)] memoises nothing but the twelve derived constants it
    prints: in particular it never evaluates c5, E2 or E3. *)
Theorem str_memoises_only_what_it_prints `{rt : Runtime} (format_8f : float → string)
    (self : SPC_Constants.t) (w : World) (key : string * positive) :
  key.1 ∉ [ "A"; "A2"; "A3"; "B3"; "B4"; "B5"; "B6"; "D1"; "D2"; "D3"; "D4" ] →
  memo (__str__ format_8f self w).2 !! key = memo w !! key.
Proof.
  intros Hkey.
  assert (Hsteps : steps (keeps_memo_at key) (__str__ format_8f self)); [|apply Hsteps].
  unfold __str__.
  repeat lazymatch goal with
  | |- steps _ (mret _) => apply (steps_ret (keeps_memo_at key))
  | |- steps _ (SPC_Constants.d2 _ ≫= _) =>
      apply (steps_bind (keeps_memo_at key)); [apply d2_keeps_memo | intros ?]
  | |- steps _ (SPC_Constants.d3 _ ≫= _) =>
      apply (steps_bind (keeps_memo_at key)); [apply d3_keeps_memo | intros ?]
  | |- steps _ (SPC_Constants.c4 _ ≫= _) =>
      apply (steps_bind (keeps_memo_at key)); [apply c4_keeps_memo | intros ?]
  | |- steps _ (_ ≫= _) =>
      apply (steps_bind (keeps_memo_at key));
      [ apply (cache_keeps_memo key);
        [ intros ->; apply Hkey; cbn [fst]; repeat constructor
        | chain_steps (keeps_memo_at key) (d2_keeps_memo key) (d3_keeps_memo key)
            (c4_keeps_memo key) ]
      | intros ? ]
  end.
Qed.

Lemma str_memoises_only_what_it_prints_witness :
  (("c5", SPC_Constants.oid example).1
     ∉ [ "A"; "A2"; "A3"; "B3"; "B4"; "B5"; "B6"; "D1"; "D2"; "D3"; "D4" ]) ∧
  memo (@__str__ docstring_runtime Oracle.format example empty_world).2
    !! ("c5", SPC_Constants.oid example) = None.
Proof.
  assert (Hkey : ("c5", SPC_Constants.oid example).1
    ∉ [ "A"; "A2"; "A3"; "B3"; "B4"; "B5"; "B6"; "D1"; "D2"; "D3"; "D4" ]).
  { cbn [fst]. intros Hin.
    repeat (apply elem_of_cons in Hin as [Heq|Hin]; [discriminate Heq|]).
    by apply elem_of_nil in Hin. }
  split; [exact Hkey|].
  apply (@str_memoises_only_what_it_prints docstring_runtime Oracle.format example
           empty_world ("c5", SPC_Constants.oid example) Hkey).
Defined.
